(** * flight_monitor: a shallow embedding of [FlightMonitor] and its properties

    The development follows [flight_monitor.py]: the date-pair generator
    [setup_keys_names], the scraping pass [fetch_flight_data], the price
    normaliser [parse_price], the alerting cycle [check_flight_price] and the
    polling loop [run].  Python integers are [Z], strings are [string],
    [None]-able values are [option]s, and the browser, the mail server and the
    operator are explicit inputs of the functions that consult them. *)

From Equations Require Import Equations.
From Stdlib Require Import ZArith List String Ascii Bool Lia Sorted.
Import ListNotations.

#[local] Open Scope string_scope.
#[local] Open Scope list_scope.
#[local] Open Scope Z_scope.

(** * Part I: the program *)

(** ** Python primitives used by the monitor *)

Module Py.

(** Exceptions the code distinguishes.  [TimeoutException] is the only one a
    handler names; [UnboundLocalError] is what reading a local that was never
    assigned raises; [ValueError] is what [int] raises on too long a string;
    [WebDriverException] stands for every other error of the browser. *)
Inductive exn : Set :=
| TimeoutException
| WebDriverException
| UnboundLocalError
| ValueError.

(** The result of a call that may raise. *)
Inductive outcome (A : Type) : Type :=
| Returned (a : A)
| Raised (e : exn).

Arguments Returned {A} a.
Arguments Raised {A} e.

(** A [string] is a [str] whose code points are all below 256, each [ascii]
    being one code point. *)

(** [bool(s)] for a [str]. *)
Definition truthy (s : string) : bool :=
  match s with
  | EmptyString => false
  | String _ _ => true
  end.

(** [sub in s]. *)
Fixpoint contains (sub s : string) : bool :=
  match s with
  | EmptyString => String.prefix sub EmptyString
  | String _ s' => String.prefix sub s || contains sub s'
  end.

(** [s.replace(old, new)] for a non-empty [old]: occurrences are replaced
    from the left and do not overlap; [skip] counts the characters of the
    occurrence just replaced that are still to be passed over. *)
Fixpoint replace_from (old new : string) (skip : nat) (s : string) : string :=
  match s with
  | EmptyString => EmptyString
  | String c s' =>
      match skip with
      | S k => replace_from old new k s'
      | O =>
          if String.prefix old s
          then (new ++ replace_from old new (Nat.pred (String.length old)) s')%string
          else String c (replace_from old new O s')
      end
  end.

Definition replace (old new s : string) : string := replace_from old new O s.

(** The class [\d]: among the code points below 256 the decimal digits are
    the ten ASCII ones. *)
Definition is_digit (c : ascii) : bool :=
  (Nat.leb 48 (nat_of_ascii c) && Nat.leb (nat_of_ascii c) 57)%bool.

(** [re.sub(r'[^\d]', '', s)]. *)
Fixpoint sub_non_digits (s : string) : string :=
  match s with
  | EmptyString => EmptyString
  | String c s' =>
      if is_digit c then String c (sub_non_digits s') else sub_non_digits s'
  end.

Fixpoint all_digits (s : string) : bool :=
  match s with
  | EmptyString => true
  | String c s' => is_digit c && all_digits s'
  end.

(** [s.isdigit()]: at least one character and all of them digits. *)
Definition isdigit (s : string) : bool := truthy s && all_digits s.

Fixpoint int_from (acc : Z) (s : string) : Z :=
  match s with
  | EmptyString => acc
  | String c s' => int_from (10 * acc + (Z.of_nat (nat_of_ascii c) - 48)) s'
  end.

(** The most digits [int] converts ([sys.int_max_str_digits], by default). *)
Definition int_max_str_digits : nat := 4300.

(** [int(s)] for a string of digits: the number it spells (Python integers
    are unbounded), or [ValueError] when it has more than
    [int_max_str_digits] characters. *)
Definition int (s : string) : outcome Z :=
  if Nat.ltb int_max_str_digits (String.length s)
  then Raised ValueError
  else Returned (int_from 0 s).

(** [min(xs)] for a non-empty sequence whose first element is [x]. *)
Definition min (x : Z) (xs : list Z) : Z := fold_left Z.min xs x.

End Py.

Import Py.

(** A value together with the equation that names it, for loop conditions
    whose outcome the termination argument needs. *)
Definition inspect {A : Type} (a : A) : {b : A | a = b} := exist _ a eq_refl.

(** ** The monitor object *)

(** The attributes [__init__] assigns.  Only [last_price] and
    [lowest_price_list] are ever assigned again. *)
Record FlightMonitor : Type := mkFlightMonitor {
  price_threshold : Z;
  check_interval : Z;
  retry_interval : Z;
  max_retries : Z;
  last_price : option Z;
  lowest_price_list : option Z;
  email_sent : bool;
  destination : string;
  dates_range : string * string;
  shortest_date : Z;
  urls : list (string * string)
}.

(** [__init__], with the dictionary that [setup_urls] fills (one URL per
    generated key, in generation order) taken as given. *)
Definition __init__ (urls : list (string * string)) : FlightMonitor :=
  {| price_threshold := 8000;
     check_interval := 1800;
     retry_interval := 60;
     max_retries := 3;
     last_price := None;
     lowest_price_list := None;
     email_sent := false;
     destination := "GOT-BJS";
     dates_range := ("2025-12-21", "2026-01-11");
     shortest_date := 16;
     urls := urls |}.

(** [self.lowest_price_list = v]. *)
Definition set_lowest_price_list (self : FlightMonitor) (v : Z) : FlightMonitor :=
  {| price_threshold := price_threshold self;
     check_interval := check_interval self;
     retry_interval := retry_interval self;
     max_retries := max_retries self;
     last_price := last_price self;
     lowest_price_list := Some v;
     email_sent := email_sent self;
     destination := destination self;
     dates_range := dates_range self;
     shortest_date := shortest_date self;
     urls := urls self |}.

(** [self.last_price = v]. *)
Definition set_last_price (self : FlightMonitor) (v : Z) : FlightMonitor :=
  {| price_threshold := price_threshold self;
     check_interval := check_interval self;
     retry_interval := retry_interval self;
     max_retries := max_retries self;
     last_price := Some v;
     lowest_price_list := lowest_price_list self;
     email_sent := email_sent self;
     destination := destination self;
     dates_range := dates_range self;
     shortest_date := shortest_date self;
     urls := urls self |}.

(** ** [setup_keys_names] *)

(** A [datetime] at midnight is its proleptic day number (the value of
    [toordinal()]): adding [pd.Timedelta(days=1)] is [+ 1] and
    [(a - b).days] is [a - b]. *)
Definition date : Set := Z.

(** The key [f"{title}_{dep_date:%Y%m%d}_{return_date:%Y%m%d}"], kept as the
    three values it is formatted from. *)
Record Key : Set := mkKey {
  key_title : string;
  departDate : date;
  returnDate : date
}.

Section KeyGenerator.

(** [title] is [self.destination]; [first_date] and [last_date] are the two
    entries of [self.dates_range] after [strptime]. *)
Variable title : string.
Variables first_date last_date : date.
Variable shortest : Z.

(** The inner loop
    [while dep_date >= first_date and return_date <= last_date],
    returning [keys] as it leaves them. *)
Equations? slide (dep_date return_date : date) (keys : list Key)
  : list Key by wf (Z.to_nat (last_date + 1 - return_date)) lt :=
  slide dep_date return_date keys
    with inspect ((dep_date >=? first_date) && (return_date <=? last_date))%bool := {
    | exist _ true _ =>
        slide (dep_date + 1) (return_date + 1)
              (keys ++ [mkKey title dep_date return_date]);
    | exist _ false _ => keys }.
Proof.
  apply andb_prop in e. destruct e as [_ e]. apply Z.leb_le in e. lia.
Qed.

(** The outer loop [while range_length >= self.shortest_date], entered with
    the values the locals hold at the loop head. *)
Equations? sweep (range_length : Z) (dep_date return_date : date)
  (keys : list Key)
  : list Key by wf (Z.to_nat (range_length + 1 - shortest)) lt :=
  sweep range_length dep_date return_date keys
    with inspect (range_length >=? shortest) := {
    | exist _ true _ =>
        let keys := slide dep_date return_date keys in
        let range_length := range_length - 1 in
        let dep_date := first_date in
        let return_date := dep_date + (range_length - 1) in
        sweep range_length dep_date return_date keys;
    | exist _ false _ => keys }.
Proof.
  apply Z.geb_le in e. lia.
Qed.

(** The method never raises: every path reaches [return keys]. *)
Definition setup_keys_names : outcome (list Key) :=
  let keys := [] in
  let dep_date := first_date in
  let return_date := last_date in
  let range_length := (return_date - dep_date) + 1 in
  Returned (sweep range_length dep_date return_date keys).

End KeyGenerator.

(** ** [fetch_flight_data] *)

(** What [fetch_flight_data] meets outside the program in one pass: the
    browser, per URL, and the directory the debug pages go to, per file name.
    [accept_cookies] is the consent block (existence check, [find_element],
    [click]); [wait_until url selector] is
    [wait.until(EC.presence_of_element_located((By.XPATH, selector)))]
    followed by [.text], either the text of the located element or the
    exception raised; [page_source] is [driver.page_source], which may raise
    as well.  [open_fails name] tells whether [open(name, 'w')] raises;
    [write_fails name text] is [None] when [f.write(text)] and the closing
    of the file succeed, and otherwise holds what the file is left with.
    Navigation itself ([driver.get], retried three times) is not
    represented: its failures are swallowed by the retry loop and only decide
    which page the later calls see. *)
Record Driver : Type := mkDriver {
  accept_cookies : string -> outcome unit;
  wait_until : string -> string -> outcome string;
  page_source : string -> outcome string;
  open_fails : string -> bool;
  write_fails : string -> string -> option string
}.

(** The XPath expressions of [price_selectors], in order, with the attribute
    values quoted by ['] throughout. *)
Definition price_selectors : list string :=
  [ "//*[@id='flight-results-list-wrapper']/div[2]/div[1]/div/div[2]/div/span[1]";
    "//*[@id='flight-results-list-wrapper']/div[6]/div[2]/div/div[1]/div[2]/div/div/div/div[2]/div/div[2]/div/div[1]/div[1]/a/div/div/div/div/div";
    "//div[contains(@class, 'e2GB-price-text') and contains(text(), 'kr')]";
    "//*[contains(text(), 'kr') and contains(@class, 'e2GB-price-text')]";
    "//*[contains(text(), 'kr')]" ].

(** The locals of [fetch_flight_data] that outlive one iteration of its
    [for key, url] loop.  [raw_price] is [None] while the name is unbound:
    it is assigned nowhere but inside the selector loop, and never reset.
    [debug_pages] collects the files opened for writing, as (name, content
    left in the file). *)
Record Fetch : Type := mkFetch {
  raw_price : option string;
  flight_data : list (string * option string);
  debug_pages : list (string * string)
}.

(** The loop [for selector in price_selectors].  It returns how the loop
    ended (normally, by [break] or exhaustion, or with an exception that no
    handler inside it catches) and the binding of [raw_price] at that point. *)
Fixpoint try_selectors (locate : string -> outcome string)
  (selectors : list string) (raw_price : option string)
  : outcome unit * option string :=
  match selectors with
  | [] => (Returned tt, raw_price)
  | selector :: rest =>
      match locate selector with
      | Returned text =>
          let raw_price := Some text in
          if truthy text && contains "kr" text
          then (Returned tt, raw_price)
          else try_selectors locate rest raw_price
      | Raised TimeoutException => try_selectors locate rest raw_price
      | Raised e => (Raised e, raw_price)
      end
  end.

(** The handler [except Exception] of the per-key [try]. *)
Definition fetch_except (key : string) (raw_price : option string) (st : Fetch)
  : Fetch :=
  {| raw_price := raw_price;
     flight_data := flight_data st ++ [(key, None)];
     debug_pages := debug_pages st |}.

(** Lines 211-213, entered after [(key, None)] has been appended: the file
    is opened, then [driver.page_source] is read, then written.  Whatever
    raises on the way is caught by the handler of the per-key [try], which
    appends [(key, None)] once more; a file that was opened stays, with what
    it holds at that point. *)
Definition save_debug_page (driver : Driver) (key url : string) (st : Fetch)
  : Fetch :=
  let name := ("debug_page_" ++ key ++ ".html")%string in
  let saved content :=
    {| raw_price := raw_price st;
       flight_data := flight_data st;
       debug_pages := debug_pages st ++ [(name, content)] |} in
  if open_fails driver name
  then fetch_except key (raw_price st) st
  else
    match page_source driver url with
    | Raised _ => fetch_except key (raw_price st) (saved EmptyString)
    | Returned source =>
        match write_fails driver name source with
        | None => saved source
        | Some remains => fetch_except key (raw_price st) (saved remains)
        end
    end.

(** One iteration of [for key, url in self.urls.items()]. *)
Definition fetch_key (driver : Driver) (st : Fetch) (entry : string * string)
  : Fetch :=
  let (key, url) := entry in
  let consent :=
    match accept_cookies driver url with
    | Raised TimeoutException => Returned tt
    | r => r
    end in
  match consent with
  | Raised _ => fetch_except key (raw_price st) st
  | Returned _ =>
      match try_selectors (wait_until driver url) price_selectors (raw_price st) with
      | (Raised _, raw_price) => fetch_except key raw_price st
      | (Returned _, None) =>
          (* [if raw_price:] reads an unbound local: UnboundLocalError *)
          fetch_except key None st
      | (Returned _, Some text) =>
          if truthy text
          then {| raw_price := Some text;
                  flight_data := flight_data st ++ [(key, Some text)];
                  debug_pages := debug_pages st |}
          else save_debug_page driver key url
                 {| raw_price := Some text;
                    flight_data := flight_data st ++ [(key, None)];
                    debug_pages := debug_pages st |}
      end
  end.

(** [fetch_flight_data]: the returned value ([None] for an empty list) and the
    debug pages written on the way. *)
Definition fetch_flight_data (self : FlightMonitor) (driver : Driver)
  : option (list (string * option string)) * list (string * string) :=
  let st :=
    fold_left (fetch_key driver) (urls self)
              {| raw_price := None; flight_data := []; debug_pages := [] |} in
  match flight_data st with
  | [] => (None, debug_pages st)
  | _ :: _ => (Some (flight_data st), debug_pages st)
  end.

(** ** [parse_price] *)

Fixpoint parse_price (flight_raw_price : list (string * option string))
  : list (string * option Z) :=
  match flight_raw_price with
  | [] => []
  | (key, None) :: rest => parse_price rest
  | (key, Some raw_price) :: rest =>
      let price_text := replace "," "" (replace " " "" (replace "kr" "" raw_price)) in
      let price_clean := sub_non_digits price_text in
      (if isdigit price_clean
       then match int price_clean with
            | Returned price => (key, Some price)
            | Raised _ => (key, None)
            end
       else (key, None)) :: parse_price rest
  end.

(** ** [check_flight_price] *)

(** What one cycle meets outside the program: [setup_driver] either returns a
    driver or raises; [send_email] returns [True] or [False] (it catches its
    own exceptions). *)
Record World : Type := mkWorld {
  setup_driver : outcome Driver;
  send_email : list (string * Z) -> bool
}.

(** What one call of [check_flight_price] leaves behind: the returned
    [statue], the object after the call, the list logged as "Flight prices"
    (empty when the call returns before that line), the arguments of the
    calls to [send_email], and the debug pages written. *)
Record Cycle : Type := mkCycle {
  statue : bool;
  monitor : FlightMonitor;
  flight_prices : list (string * option Z);
  send_email_calls : list (list (string * Z));
  pages_saved : list (string * string)
}.

(** [[price for price in flight_prices if price[1] is not None]]. *)
Fixpoint valid_prices (flight_prices : list (string * option Z))
  : list (string * Z) :=
  match flight_prices with
  | [] => []
  | (key, Some price) :: rest => (key, price) :: valid_prices rest
  | (_, None) :: rest => valid_prices rest
  end.

Definition check_flight_price (self : FlightMonitor) (world : World) : Cycle :=
  let statue := false in
  match setup_driver world with
  | Raised _ => mkCycle statue self [] [] []
  | Returned driver =>
      let (flight_raw_price, pages) := fetch_flight_data self driver in
      match flight_raw_price with
      | None => mkCycle statue self [] [] pages
      | Some flight_raw_price =>
          let flight_prices := parse_price flight_raw_price in
          match valid_prices flight_prices with
          | [] => mkCycle statue self flight_prices [] pages
          | (first :: others) as valid_prices =>
              let current_lowest_price := min (snd first) (map snd others) in
              let '(should_send_email, self) :=
                if current_lowest_price <? price_threshold self then
                  match lowest_price_list self with
                  | None =>
                      (true, set_lowest_price_list self current_lowest_price)
                  | Some lowest =>
                      if current_lowest_price <? lowest
                      then (true, set_lowest_price_list self current_lowest_price)
                      else (false, self)
                  end
                else (false, self) in
              let '(statue, calls) :=
                if should_send_email then
                  let below_threshold_prices :=
                    filter (fun price => snd price <? price_threshold self)
                           valid_prices in
                  if send_email world below_threshold_prices
                  then (true, [below_threshold_prices])
                  else (statue, [below_threshold_prices])
                else (true, []) in
              let self := set_last_price self current_lowest_price in
              mkCycle statue self flight_prices calls pages
          end
      end
  end.

(** ** [run] *)

(** The outcomes of [time.sleep(seconds)]: it returns, the operator
    interrupts it, or it raises at once. *)
Inductive nap : Set :=
| Woke
| Interrupted
| Refused.

(** The longest sleep the interpreter can express: its time is a signed
    64-bit count of nanoseconds. *)
Definition sleep_max : Z := 9223372036.

(** [time.sleep(seconds)] for an integer: it refuses a negative length with
    [ValueError], a length beyond [sleep_max] with [OverflowError], and a
    length the clock of the platform has no room for with [OSError];
    [longest] is the room the clock has at the time of the call. *)
Definition time_sleep (longest seconds : Z) (interrupted : bool) : nap :=
  if (seconds <? 0) || (Z.min longest sleep_max <? seconds) then Refused
  else if interrupted then Interrupted
  else Woke.

(** Where in a call of [check_flight_price] the operator's interrupt arrives.
    No handler of the call catches [KeyboardInterrupt] (the one around
    [driver.quit()] apart, after which the call returns as usual), so it
    leaves the call with the object as it is at that moment: before the
    decision of lines 301-312, nothing assigned; between the decision and
    line 327, as while [send_email] runs; after line 327. *)
Inductive moment : Set :=
| WhileFetching
| WhileNotifying
| WhileLeaving.

(** [self.last_price] put back to an earlier value. *)
Definition with_last_price (self : FlightMonitor) (v : option Z) : FlightMonitor :=
  {| price_threshold := price_threshold self;
     check_interval := check_interval self;
     retry_interval := retry_interval self;
     max_retries := max_retries self;
     last_price := v;
     lowest_price_list := lowest_price_list self;
     email_sent := email_sent self;
     destination := destination self;
     dates_range := dates_range self;
     shortest_date := shortest_date self;
     urls := urls self |}.

(** The object after a call that the interrupt leaves at [m].  A call that
    returns before the decision has assigned nothing at any moment. *)
Definition interrupted_call (self : FlightMonitor) (world : World) (m : moment)
  : FlightMonitor :=
  let cycle := check_flight_price self world in
  match m with
  | WhileFetching => self
  | WhileNotifying => with_last_price (monitor cycle) (last_price self)
  | WhileLeaving => monitor cycle
  end.

(** One turn of [while True]: the world the cycle meets, the moment the
    operator interrupts the call (if so), whether the operator interrupts the
    sleep of the turn (the first call of [time.sleep] in it that is not
    refused), and the longest sleep the clock has room for during the turn. *)
Record Turn : Type := mkTurn {
  world : World;
  interrupt : option moment;
  sleep_interrupted : bool;
  longest_sleep : Z
}.

(** What [run] does that can be seen: a call of [check_flight_price] that
    returned, with what it left behind, and a call [time.sleep(seconds)],
    whether or not it got to sleep. *)
Inductive event : Type :=
| Checked (cycle : Cycle)
| Sleep (seconds : Z).

(** How [run] left its loop: by [break] in the [KeyboardInterrupt] handler;
    with the [KeyboardInterrupt] that arrives during the sleep of the
    [except Exception] handler, which no handler covers; or with the
    exception that sleep raises when it is refused. *)
Inductive exit : Set :=
| StoppedByUser
| InterruptPropagated
| ErrorPropagated.

(** A run over finitely many turns: the object at the end, the events in
    order, and the way the loop was left ([None]: still looping). *)
Record Run : Type := mkRun {
  final : FlightMonitor;
  trace : list event;
  exited : option exit
}.

Definition then_ (events : list event) (r : Run) : Run :=
  mkRun (final r) (events ++ trace r) (exited r).

Fixpoint run (self : FlightMonitor) (turns : list Turn) : Run :=
  match turns with
  | [] => mkRun self [] None
  | turn :: rest =>
      match interrupt turn with
      | Some m =>
          mkRun (interrupted_call self (world turn) m) [] (Some StoppedByUser)
      | None =>
          let cycle := check_flight_price self (world turn) in
          let success := statue cycle in
          let self := monitor cycle in
          let seconds :=
            if success then check_interval self else retry_interval self in
          match time_sleep (longest_sleep turn) seconds (sleep_interrupted turn) with
          | Woke => then_ [Checked cycle; Sleep seconds] (run self rest)
          | Interrupted =>
              mkRun self [Checked cycle; Sleep seconds] (Some StoppedByUser)
          | Refused =>
              (* the handler [except Exception] *)
              let events :=
                [Checked cycle; Sleep seconds; Sleep (check_interval self)] in
              match time_sleep (longest_sleep turn) (check_interval self)
                               (sleep_interrupted turn) with
              | Woke => then_ events (run self rest)
              | Interrupted => mkRun self events (Some InterruptPropagated)
              | Refused => mkRun self events (Some ErrorPropagated)
              end
          end
      end
  end.

(** ** [setup_urls] *)

(** [s.split(sep)] for a one-character separator: the pieces between the
    occurrences of [sep], at least one piece. *)
Fixpoint split (sep : ascii) (s : string) : list string :=
  match s with
  | EmptyString => [EmptyString]
  | String c s' =>
      if Ascii.eqb c sep
      then EmptyString :: split sep s'
      else match split sep s' with
           | [] => [String c EmptyString]
           | piece :: pieces => String c piece :: pieces
           end
  end.

(** The slices [s[lo:hi]] and [s[lo:]]; like Python's, they stop at the end of
    the string. *)
Definition slice (lo hi : nat) (s : string) : string :=
  substring lo (hi - lo) s.

Definition slice_from (lo : nat) (s : string) : string :=
  substring lo (String.length s) s.

(** [d[key] = value] on a dictionary kept as its items in insertion order: a
    key already present keeps its place and gets the new value. *)
Fixpoint dict_set (d : list (string * string)) (key value : string)
  : list (string * string) :=
  match d with
  | [] => [(key, value)]
  | (k, v) :: rest =>
      if (k =? key)%string
      then (k, value) :: rest
      else (k, v) :: dict_set rest key value
  end.

(** [part[:4] + "-" + part[4:6] + "-" + part[6:]]. *)
Definition dashed (part : string) : string :=
  (slice 0 4 part ++ "-" ++ slice 4 6 part ++ "-" ++ slice_from 6 part)%string.

(** The f-string of line 99. *)
Definition kayak_url (destination dep_date return_date : string) : string :=
  ("https://www.kayak.se/flights/" ++ destination ++ "/" ++ dep_date ++ "/"
   ++ return_date
   ++ "?ucs=1hk4vhy&sort=price_a&fs=cfc=1;takeoff=1012,2230__;layoverdur=-300;legdur=-1500;stops=1;bfc=1")%string.

(** The body of [for key in dates_combinations] up to the assignment: the URL
    for [key], or [None] when indexing the pieces of [key] raises
    [IndexError]. *)
Definition url_of_key (key : string) : option string :=
  let pieces := split "_" key in
  match nth_error pieces 0, nth_error pieces 1, nth_error pieces 2 with
  | Some destination, Some dep, Some ret =>
      Some (kayak_url destination (dashed dep) (dashed ret))
  | _, _, _ => None
  end.

(** The loop of [setup_urls] over [dates_combinations], from the dictionary
    [urls]; [None] when an iteration raises. *)
Fixpoint fill_urls (dates_combinations : list string)
  (urls : list (string * string)) : option (list (string * string)) :=
  match dates_combinations with
  | [] => Some urls
  | key :: rest =>
      match url_of_key key with
      | None => None
      | Some url => fill_urls rest (dict_set urls key url)
      end
  end.

Section UrlSetup.

(** [strftime d] is [d.strftime('%Y%m%d')], a function of the library. *)
Variable strftime : date -> string.

(** The string appended to [keys] at line 75, for the pair a [Key] holds. *)
Definition key_name (k : Key) : string :=
  (key_title k ++ "_" ++ strftime (departDate k) ++ "_"
   ++ strftime (returnDate k))%string.

(** [setup_urls], as the value of [self.urls] it leaves. *)
Definition setup_urls (title : string) (first_date last_date : date)
  (shortest : Z) : option (list (string * string)) :=
  match setup_keys_names title first_date last_date shortest with
  | Returned keys => fill_urls (map key_name keys) []
  | Raised _ => None
  end.

End UrlSetup.
(** * Part II: specification vocabulary *)

(** The keys one pass of the inner loop appends: the pair
    [(dep_date, return_date)] shifted by [0], [1], ..., [n - 1] days. *)
Definition shifted (title : string) (dep_date return_date : date) (n : nat)
  : list Key :=
  map (fun i => mkKey title (dep_date + Z.of_nat i) (return_date + Z.of_nat i))
      (seq 0 n).

(** The pair of dates a key stands for, and the length of its trip in days. *)
Definition dates (k : Key) : date * date := (departDate k, returnDate k).

Definition trip_length (k : Key) : Z := returnDate k - departDate k + 1.


(** The decision of lines 301-312 as one Boolean, for a cycle whose lowest
    valid price is [cur]. *)
Definition should_alert (self : FlightMonitor) (cur : Z) : bool :=
  (cur <? price_threshold self)
  && match lowest_price_list self with
     | None => true
     | Some best => cur <? best
     end.

(** [cur] is the minimum of the non-null amounts in [prices]. *)
Definition is_lowest (cur : Z) (prices : list (string * option Z)) : Prop :=
  (exists key, In (key, Some cur) prices) /\
  (forall key price, In (key, Some price) prices -> cur <= price).

(** The alert fires in a cycle when [send_email] is called in it. *)
Definition fires (c : Cycle) : Prop := send_email_calls c <> [].

(** The object after a sequence of cycles, one per world. *)
Fixpoint after (self : FlightMonitor) (worlds : list World) : FlightMonitor :=
  match worlds with
  | [] => self
  | world :: rest => after (monitor (check_flight_price self world)) rest
  end.

(** The held best price, when there is one, is below the threshold. *)
Definition held_below_threshold (self : FlightMonitor) : Prop :=
  forall best, lowest_price_list self = Some best -> best < price_threshold self.



(** The operator interrupts somewhere in [turns]. *)
Definition interrupted (turns : list Turn) : Prop :=
  exists turn, In turn turns /\
    (interrupt turn <> None \/ sleep_interrupted turn = true).

(** ** Sample inputs *)

Definition key_2111 : string := "GOT-BJS_20251221_20260111".
Definition key_2110 : string := "GOT-BJS_20251221_20260110".

Definition url_2111 : string :=
  "https://www.kayak.se/flights/GOT-BJS/2025-12-21/2026-01-11?ucs=1hk4vhy&sort=price_a&fs=cfc=1;takeoff=1012,2230__;layoverdur=-300;legdur=-1500;stops=1;bfc=1".
Definition url_2110 : string :=
  "https://www.kayak.se/flights/GOT-BJS/2025-12-21/2026-01-10?ucs=1hk4vhy&sort=price_a&fs=cfc=1;takeoff=1012,2230__;layoverdur=-300;legdur=-1500;stops=1;bfc=1".

Definition one_url : list (string * string) := [(key_2111, url_2111)].
Definition two_urls : list (string * string) :=
  [(key_2111, url_2111); (key_2110, url_2110)].

(** A browser with no consent dialog trouble in which every selector locates,
    on the page of [url], an element whose text is [shown url], and times out
    when there is none; reading the page source and writing files work. *)
Definition browser (shown : string -> option string) : Driver :=
  {| accept_cookies := fun _ => Returned tt;
     wait_until := fun url _ =>
       match shown url with
       | Some text => Returned text
       | None => Raised TimeoutException
       end;
     page_source := fun _ => Returned "<html></html>";
     open_fails := fun _ => false;
     write_fails := fun _ _ => None |}.

(** The same browser on a day the debug pages cannot be written: the session
    is lost when the page source is asked for. *)
Definition browser_losing_session (shown : string -> option string) : Driver :=
  {| accept_cookies := accept_cookies (browser shown);
     wait_until := wait_until (browser shown);
     page_source := fun _ => Raised WebDriverException;
     open_fails := fun _ => false;
     write_fails := fun _ _ => None |}.

(** The object [__init__] builds, with other intervals. *)
Definition with_intervals (self : FlightMonitor) (check retry : Z) : FlightMonitor :=
  {| price_threshold := price_threshold self;
     check_interval := check;
     retry_interval := retry;
     max_retries := max_retries self;
     last_price := last_price self;
     lowest_price_list := lowest_price_list self;
     email_sent := email_sent self;
     destination := destination self;
     dates_range := dates_range self;
     shortest_date := shortest_date self;
     urls := urls self |}.

(** The room a clock has that was started a few years ago. *)
Definition clock_room : Z := 9223000000.

(** A world whose browser cannot be started. *)
Definition no_driver : World :=
  {| setup_driver := Raised WebDriverException; send_email := fun _ => true |}.

(** Every page shows [text]. *)
Definition all_show (text : string) : Driver := browser (fun _ => Some text).

(** The first itinerary shows a price; the page of the second has no element
    that any selector finds. *)
Definition second_page_blank : Driver :=
  browser (fun url => if (url =? url_2111)%string then Some "7 500 kr" else None).

(** No page has an element that any selector finds. *)
Definition all_blank : Driver := browser (fun _ => None).

Definition world_of (driver : Driver) (delivered : bool) : World :=
  {| setup_driver := Returned driver; send_email := fun _ => delivered |}.

(** 2025-12-21 and 2026-01-11 as day numbers. *)
Definition dec_21 : date := 739606.
Definition jan_11 : date := 739627.

(** [strftime('%Y%m%d')] on the days of the default window, tabulated. *)
Definition strftime_window (d : date) : string :=
  match d with
  | 739606 => "20251221"
  | 739607 => "20251222"
  | 739608 => "20251223"
  | 739609 => "20251224"
  | 739610 => "20251225"
  | 739611 => "20251226"
  | 739612 => "20251227"
  | 739613 => "20251228"
  | 739614 => "20251229"
  | 739615 => "20251230"
  | 739616 => "20251231"
  | 739617 => "20260101"
  | 739618 => "20260102"
  | 739619 => "20260103"
  | 739620 => "20260104"
  | 739621 => "20260105"
  | 739622 => "20260106"
  | 739623 => "20260107"
  | 739624 => "20260108"
  | 739625 => "20260109"
  | 739626 => "20260110"
  | 739627 => "20260111"
  | _ => EmptyString
  end.

(** [c in s], for a character. *)
Fixpoint occurs (c : ascii) (s : string) : bool :=
  match s with
  | EmptyString => false
  | String c' s' => Ascii.eqb c' c || occurs c s'
  end.

(** A text without the separator of the key. *)
Definition underscore_free (s : string) : Prop := occurs "_" s = false.

(** ** Vocabulary for the remaining properties *)

(** The order in which keys are generated: longer trips first, and among
    trips of one length the earlier departure first. *)
Definition generated_before (a b : Key) : Prop :=
  trip_length a > trip_length b \/
  (trip_length a = trip_length b /\ departDate a < departDate b).

(** The number spelled by the digits of a text, read in order and ignoring
    everything else; [None] when the text has no digit, or more digits than
    [int] converts. *)
Definition amount_of (raw : string) : option Z :=
  let digits := sub_non_digits raw in
  if truthy digits && Nat.leb (String.length digits) int_max_str_digits
  then Some (int_from 0 digits)
  else None.

(** The test that ends the selector loop: the located text is not empty and
    contains the currency marker. *)
Definition finds_price (text : string) : bool := truthy text && contains "kr" text.

(** A selector that does not end the loop: it times out, or it locates an
    element whose text fails the test. *)
Definition gives_up (located : outcome string) : Prop :=
  located = Raised TimeoutException \/
  exists text, located = Returned text /\ finds_price text = false.

(** The name of the debug page of a key. *)
Definition debug_page_name (key : string) : string :=
  ("debug_page_" ++ key ++ ".html")%string.

(** What a debug page holds once the pass is over: the page source when
    reading and writing it worked, nothing when reading it raised, and what
    the failed write left otherwise. *)
Definition page_left (driver : Driver) (name url content : string) : Prop :=
  match page_source driver url with
  | Raised _ => content = EmptyString
  | Returned source =>
      match write_fails driver name source with
      | None => content = source
      | Some remains => content = remains
      end
  end.

(** Saving the debug page of a key raises: opening the file, reading the page
    source, or writing it. *)
Definition save_fails (driver : Driver) (key url : string) : Prop :=
  open_fails driver (debug_page_name key) = true \/
  (exists e, page_source driver url = Raised e) \/
  (exists source remains,
      page_source driver url = Returned source /\
      write_fails driver (debug_page_name key) source = Some remains).

(** The observations one entry of [self.urls] contributes: one, whose text
    if any is not empty; or two null ones, when saving the debug page of the
    key raises. *)
Definition contributed (driver : Driver) (entry : string * string)
  (group : list (string * option string)) : Prop :=
  (exists obs,
      group = [(fst entry, obs)] /\
      forall text, obs = Some text -> truthy text = true) \/
  (group = [(fst entry, None); (fst entry, None)] /\
   save_fails driver (fst entry) (snd entry)).

(** What holds of the locals of [fetch_flight_data] once the entries [seen]
    of [self.urls] are done: the observations are what the entries
    contributed, in order; every file opened is the debug page of an entry
    whose observation is null, and holds what [page_left] says. *)
Definition fetched (driver : Driver) (seen : list (string * string)) (st : Fetch)
  : Prop :=
  (exists groups,
      flight_data st = List.concat groups /\ Forall2 (contributed driver) seen groups) /\
  (forall name content,
      In (name, content) (debug_pages st) ->
      exists key url,
        In (key, url) seen /\ name = debug_page_name key /\
        open_fails driver name = false /\
        page_left driver name url content /\
        In (key, None) (flight_data st)).


(** From [self] to [later] the threshold is the same, a held best price has
    not been raised, and a held best price below the threshold (or none) has
    stayed so. *)
Definition held_price_kept (self later : FlightMonitor) : Prop :=
  price_threshold later = price_threshold self /\
  (forall best,
      lowest_price_list self = Some best ->
      exists best', lowest_price_list later = Some best' /\ best' <= best) /\
  (held_below_threshold self -> held_below_threshold later).
(** * Part III: properties *)

(** ** Key generation *)

Section KeyGeneratorFacts.

Variable title : string.
Variables first_date last_date : date.
Variable shortest : Z.

Lemma shifted_S dep ret n :
  shifted title dep ret (S n)
  = mkKey title dep ret :: shifted title (dep + 1) (ret + 1) n.
Proof.
  unfold shifted. simpl. rewrite !Z.add_0_r. f_equal.
  rewrite <- seq_shift, map_map. apply map_ext. intros i.
  f_equal; lia.
Qed.

Lemma in_shifted k dep ret n :
  In k (shifted title dep ret n) <->
  exists i, 0 <= i < Z.of_nat n /\ k = mkKey title (dep + i) (ret + i).
Proof.
  unfold shifted. rewrite in_map_iff. split.
  - intros (i & <- & Hi). apply in_seq in Hi. exists (Z.of_nat i). split; [lia | reflexivity].
  - intros (i & Hi & ->). exists (Z.to_nat i). split.
    + rewrite Z2Nat.id by lia. reflexivity.
    + apply in_seq. lia.
Qed.

Lemma NoDup_dates_shifted dep ret n :
  NoDup (map dates (shifted title dep ret n)).
Proof.
  unfold shifted. rewrite map_map. simpl.
  apply NoDup_map_NoDup_ForallPairs; [| apply seq_NoDup].
  intros i j _ _ H. injection H. lia.
Qed.

(** The inner loop appends to [keys] the shifts of its starting pair that
    keep the return date inside the window. *)
Lemma slide_eq dep ret keys :
  first_date <= dep ->
  slide title first_date last_date dep ret keys
  = keys ++ shifted title dep ret (Z.to_nat (last_date + 1 - ret)).
Proof.
  funelim (slide title first_date last_date dep ret keys); intros Hd.
  - match goal with IH : _ -> slide _ _ _ _ _ _ = _ |- _ => rewrite IH by lia end.
    destruct (andb_prop _ _ e) as [_ Hr]. apply Z.leb_le in Hr.
    replace (Z.to_nat (last_date + 1 - return_date))
      with (S (Z.to_nat (last_date + 1 - (return_date + 1)))) by lia.
    rewrite shifted_S, <- app_assoc. reflexivity.
  - destruct (proj1 (andb_false_iff _ _) e) as [Hc | Hc].
    + rewrite Z.geb_leb in Hc. apply Z.leb_gt in Hc. lia.
    + apply Z.leb_gt in Hc.
      replace (Z.to_nat (last_date + 1 - return_date)) with O by lia.
      simpl. rewrite app_nil_r. reflexivity.
Qed.

(** Membership in the result of the outer loop, entered at its loop head
    (where [dep_date] is [first_date] and the pair spans [range_length]
    days): the old keys, and every pair inside the window whose trip length is
    between [shortest] and [range_length]. *)
Lemma in_sweep range_length dep ret keys k :
  dep = first_date ->
  ret = first_date + (range_length - 1) ->
  In k (sweep title first_date last_date shortest range_length dep ret keys) <->
  In k keys \/
  (key_title k = title /\ shortest <= trip_length k <= range_length /\
   first_date <= departDate k /\ returnDate k <= last_date).
Proof.
  funelim (sweep title first_date last_date shortest range_length dep ret keys);
    intros Hdep Hret.
  - pose proof (proj1 (Z.geb_le _ _) e) as Hc. cbv zeta in *.
    match goal with IH : forall _, _ -> _ -> _ <-> _ |- _ => rewrite IH by reflexivity end.
    rewrite slide_eq by lia. rewrite in_app_iff, in_shifted.
    unfold trip_length. subst dep_date return_date. split.
    + intros [[Hk | (i & Hi & ->)] | (Ht & Hl & Hf & Hr)]; [now left | right | right].
      * simpl. repeat split; lia.
      * repeat split; try assumption; lia.
    + intros [Hk | (Ht & Hl & Hf & Hr)]; [now left; left |].
      destruct (Z.eq_dec (returnDate k - departDate k + 1) range_length) as [E | E].
      * left; right. exists (departDate k - first_date). split; [lia |].
        destruct k as [t d r]; simpl in *. subst t. f_equal; lia.
      * right. repeat split; try assumption; lia.
  - pose proof e as Hc. rewrite Z.geb_leb in Hc. apply Z.leb_gt in Hc.
    unfold trip_length. split.
    + intros Hk. now left.
    + intros [Hk | (_ & Hl & _)]; [assumption | lia].
Qed.

(** The outer loop keeps the pairs of dates distinct, as long as the keys it
    starts from are distinct and all longer than [range_length]. *)
Lemma NoDup_dates_sweep range_length dep ret keys :
  dep = first_date ->
  ret = first_date + (range_length - 1) ->
  NoDup (map dates keys) ->
  (forall k, In k keys -> range_length < trip_length k) ->
  NoDup (map dates
           (sweep title first_date last_date shortest range_length dep ret keys)).
Proof.
  funelim (sweep title first_date last_date shortest range_length dep ret keys);
    intros Hdep Hret Hnd Hlen; [| assumption].
  cbv zeta in *. subst dep_date return_date.
  match goal with IH : _ -> _ -> _ -> _ -> NoDup _ |- _ => apply IH; clear IH end;
    try reflexivity; rewrite slide_eq by lia.
  - rewrite map_app. apply NoDup_app; [assumption | apply NoDup_dates_shifted |].
    intros p Hp Hq. apply in_map_iff in Hp. destruct Hp as (k & <- & Hk).
    apply in_map_iff in Hq. destruct Hq as (k' & E & Hk').
    apply in_shifted in Hk'. destruct Hk' as (i & _ & ->).
    apply Hlen in Hk. unfold trip_length in Hk. unfold dates in E. simpl in E.
    injection E. lia.
  - intros k Hk. apply in_app_iff in Hk. destruct Hk as [Hk | Hk].
    + apply Hlen in Hk. lia.
    + apply in_shifted in Hk. destruct Hk as (i & _ & ->).
      unfold trip_length. simpl. lia.
Qed.

End KeyGeneratorFacts.

(** *** The generated key set *)

Example default_window_keys :
  exists keys,
    setup_keys_names "GOT-BJS" dec_21 jan_11 16 = Returned keys /\
    List.length keys = 28%nat /\
    hd_error (map dates keys) = Some (dec_21, jan_11) /\
    nth_error (map dates keys) 27 = Some (dec_21 + 6, jan_11).
Proof. eexists. split; [reflexivity |]. vm_compute. auto. Qed.

(** C7, as stated, fails: with a minimum trip of 23 days in the 22-day
    window, and with the window's ends exchanged, the generator returns the
    empty list; it raises nothing. *)
Lemma setup_keys_names_returns_on_short_window :
  23 > jan_11 - dec_21 + 1 /\
  setup_keys_names "GOT-BJS" dec_21 jan_11 23 = Returned [] /\
  jan_11 > dec_21 /\
  setup_keys_names "GOT-BJS" jan_11 dec_21 16 = Returned [].
Proof. vm_compute. repeat split; reflexivity. Qed.

(** C7, amended: whenever the minimum trip length exceeds the window length,
    and so whenever the window starts after it ends and the minimum trip
    length is at least one day, the generator returns the empty key list. *)
Theorem setup_keys_names_empty_on_short_window title first_date last_date shortest :
  shortest > last_date - first_date + 1 \/
  (first_date > last_date /\ 1 <= shortest) ->
  setup_keys_names title first_date last_date shortest = Returned [].
Proof.
  intros H. unfold setup_keys_names. cbv zeta. f_equal.
  destruct (sweep title first_date last_date shortest
              (last_date - first_date + 1) first_date last_date [])
    as [| k keys] eqn:E; [reflexivity | exfalso].
  assert (Hin : In k (sweep title first_date last_date shortest
                        (last_date - first_date + 1) first_date last_date []))
    by (rewrite E; now left).
  apply in_sweep in Hin; [| reflexivity | lia].
  destruct Hin as [[] | (_ & Hl & _)]. lia.
Qed.

Lemma setup_keys_names_empty_on_short_window_witness :
  (23 > jan_11 - dec_21 + 1 \/ (dec_21 > jan_11 /\ 1 <= 23)) /\
  setup_keys_names "GOT-BJS" dec_21 jan_11 23 = Returned [].
Proof.
  assert (H : 23 > jan_11 - dec_21 + 1 \/ (dec_21 > jan_11 /\ 1 <= 23))
    by (left; vm_compute; reflexivity).
  split; [exact H |].
  exact (setup_keys_names_empty_on_short_window "GOT-BJS" dec_21 jan_11 23 H).
Defined.

(** C8, as stated, fails: a one-day window with a minimum trip length of 0
    is a valid configuration in the claim's sense, and the generator emits
    the pair that returns the day before it departs. *)
Lemma setup_keys_names_zero_length_trip :
  dec_21 <= dec_21 /\ 0 <= dec_21 - dec_21 + 1 /\
  exists keys k,
    setup_keys_names "GOT-BJS" dec_21 dec_21 0 = Returned keys /\
    In k keys /\ dates k = (dec_21, dec_21 - 1) /\
    ~ departDate k <= returnDate k.
Proof.
  split; [vm_compute; discriminate |]. split; [vm_compute; discriminate |].
  eexists. exists (mkKey "GOT-BJS" dec_21 (dec_21 - 1)).
  split; [reflexivity |].
  split; [vm_compute; right; left; reflexivity |].
  split; [reflexivity | vm_compute; auto].
Qed.

(** C8, amended: for every configuration with [windowStart <= windowEnd] and
    [1 <= minTripLength <= window length], every generated key departs no
    later than it returns, spans at least [minTripLength] days, and has both
    dates inside the window. *)
Theorem generated_keys_valid title first_date last_date shortest keys k :
  first_date <= last_date ->
  1 <= shortest ->
  shortest <= last_date - first_date + 1 ->
  setup_keys_names title first_date last_date shortest = Returned keys ->
  In k keys ->
  departDate k <= returnDate k /\
  returnDate k - departDate k + 1 >= shortest /\
  first_date <= departDate k <= last_date /\
  first_date <= returnDate k <= last_date.
Proof.
  intros _ Hpos _ E Hin. unfold setup_keys_names in E. cbv zeta in E.
  injection E as <-.
  apply in_sweep in Hin; [| reflexivity | lia].
  destruct Hin as [[] | (_ & Hl & Hf & Hr)]. unfold trip_length in Hl. lia.
Qed.

Lemma generated_keys_valid_witness :
  dec_21 <= jan_11 /\ 1 <= 16 /\ 16 <= jan_11 - dec_21 + 1 /\
  departDate (mkKey "GOT-BJS" (dec_21 + 6) jan_11)
  <= returnDate (mkKey "GOT-BJS" (dec_21 + 6) jan_11).
Proof.
  assert (H1 : dec_21 <= jan_11) by (vm_compute; discriminate).
  assert (H2 : 1 <= 16) by lia.
  assert (H3 : 16 <= jan_11 - dec_21 + 1) by (vm_compute; discriminate).
  repeat (split; [assumption |]).
  refine (proj1 (generated_keys_valid "GOT-BJS" dec_21 jan_11 16 _
                   (mkKey "GOT-BJS" (dec_21 + 6) jan_11) H1 H2 H3 eq_refl _)).
  vm_compute. do 27 right. left. reflexivity.
Defined.

(** C9: the generator returns, and no pair of dates occurs twice in the list
    it returns (for every configuration, valid or not). *)
Theorem generated_keys_distinct title first_date last_date shortest :
  exists keys,
    setup_keys_names title first_date last_date shortest = Returned keys /\
    NoDup (map dates keys).
Proof.
  eexists. split; [reflexivity |].
  apply NoDup_dates_sweep; [reflexivity | lia | constructor |].
  intros k [].
Qed.

(** ** One cycle *)

Lemma in_valid_prices key price flight_prices :
  In (key, price) (valid_prices flight_prices) <->
  In (key, Some price) flight_prices.
Proof.
  induction flight_prices as [| [k [p |]] rest IH]; simpl.
  - tauto.
  - rewrite IH. split; (intros [E | H]; [left; congruence | now right]).
  - rewrite IH. split; [now right | intros [E | H]; [discriminate | assumption]].
Qed.

Lemma min_lower_bound xs : forall x y, In y (x :: xs) -> min x xs <= y.
Proof.
  unfold min. induction xs as [| z xs IH]; intros x y Hy; simpl in *.
  - destruct Hy as [-> | []]. lia.
  - destruct Hy as [<- | [<- | Hy]].
    + specialize (IH (Z.min x z) (Z.min x z) (or_introl eq_refl)). lia.
    + specialize (IH (Z.min x z) (Z.min x z) (or_introl eq_refl)). lia.
    + apply IH. now right.
Qed.

Lemma min_attained xs : forall x, In (min x xs) (x :: xs).
Proof.
  unfold min. induction xs as [| z xs IH]; intros x; simpl.
  - now left.
  - destruct (IH (Z.min x z)) as [E | H].
    + rewrite <- E. destruct (Z.min_spec x z) as [[_ ->] | [_ ->]]; auto.
    + right; right. exact H.
Qed.

Lemma is_lowest_unique a b prices :
  is_lowest a prices -> is_lowest b prices -> a = b.
Proof.
  intros [[ka Ha] La] [[kb Hb] Lb].
  apply La in Hb. apply Lb in Ha. lia.
Qed.

Lemma lowest_of_valid_prices flight_prices first others :
  valid_prices flight_prices = first :: others ->
  is_lowest (min (snd first) (map snd others)) flight_prices.
Proof.
  intros E. split.
  - pose proof (min_attained (map snd others) (snd first)) as H.
    change (snd first :: map snd others) with (map snd (first :: others)) in H.
    rewrite <- E in H. apply in_map_iff in H. destruct H as ([k p] & Hp & Hin).
    simpl in Hp. rewrite <- Hp. exists k. apply in_valid_prices. exact Hin.
  - intros k p Hin. apply in_valid_prices in Hin. rewrite E in Hin.
    apply min_lower_bound.
    change (snd first :: map snd others) with (map snd (first :: others)).
    change p with (snd (k, p)). apply in_map. exact Hin.
Qed.

Lemma no_lowest_without_valid_prices cur flight_prices :
  valid_prices flight_prices = [] -> ~ is_lowest cur flight_prices.
Proof.
  intros E [[k H] _]. apply in_valid_prices in H. rewrite E in H. exact H.
Qed.

(** The two ways a call of [check_flight_price] ends: before the evaluation,
    with nothing changed, or after it, with the decision [should_alert] taken
    on the lowest valid price. *)
Lemma check_flight_price_cases self world :
  let c := check_flight_price self world in
  (valid_prices (flight_prices c) = [] /\ statue c = false /\
   monitor c = self /\ send_email_calls c = [])
  \/
  (exists cur payload,
     is_lowest cur (flight_prices c) /\
     payload = filter (fun price => snd price <? price_threshold self)
                      (valid_prices (flight_prices c)) /\
     if should_alert self cur
     then monitor c = set_last_price (set_lowest_price_list self cur) cur /\
          send_email_calls c = [payload] /\
          statue c = send_email world payload
     else monitor c = set_last_price self cur /\
          send_email_calls c = [] /\
          statue c = true).
Proof.
  unfold check_flight_price.
  destruct (setup_driver world) as [driver | e]; [| left; simpl; auto].
  destruct (fetch_flight_data self driver) as [[raw |] pages]; [| left; simpl; auto].
  destruct (valid_prices (parse_price raw)) as [| first others] eqn:E;
    [left; simpl; auto |].
  right. exists (min (snd first) (map snd others)).
  pose proof (lowest_of_valid_prices _ _ _ E) as Hlow.
  exists (filter (fun price => snd price <? price_threshold self) (first :: others)).
  unfold should_alert.
  destruct (min (snd first) (map snd others) <? price_threshold self) eqn:Ht;
    [destruct (lowest_price_list self) as [best |] eqn:Hb;
     [destruct (min (snd first) (map snd others) <? best) eqn:Hi |] |];
    cbn -[filter min valid_prices parse_price].
  all: try match goal with
           | |- context [send_email ?w ?p] => destruct (send_email w p)
           end.
  all: cbn -[filter min valid_prices parse_price]; rewrite E; auto.
Qed.

(** *** Evaluations on the sample inputs *)

Example scenario_A :
  let c := check_flight_price
             (__init__ two_urls)
             (world_of (browser (fun url => if (url =? url_2111)%string
                                            then Some "7 500 kr"
                                            else Some "9 000 kr")) true) in
  flight_prices c = [(key_2111, Some 7500); (key_2110, Some 9000)] /\
  send_email_calls c = [[(key_2111, 7500)]] /\
  lowest_price_list (monitor c) = Some 7500 /\
  statue c = true.
Proof. vm_compute. auto. Qed.

Example scenario_B :
  let c := check_flight_price
             (set_lowest_price_list (__init__ one_url) 7500)
             (world_of (all_show "7 600 kr") true) in
  send_email_calls c = [] /\ lowest_price_list (monitor c) = Some 7500 /\
  last_price (monitor c) = Some 7600 /\ statue c = true.
Proof. vm_compute. auto. Qed.

Example scenario_C :
  let c := check_flight_price
             (set_lowest_price_list (__init__ one_url) 7500)
             (world_of (all_show "7 200 kr") true) in
  send_email_calls c = [[(key_2111, 7200)]] /\
  lowest_price_list (monitor c) = Some 7200.
Proof. vm_compute. auto. Qed.

(** *** The alert decision *)

(** C1: in a cycle that has a valid price, the alert fires exactly when the
    lowest valid price is strictly below the threshold and either no best
    price is held or the lowest price is strictly below the held one; it does
    not fire when the lowest price is at or above the threshold. *)
Theorem alert_fires_iff_below_threshold_and_improving self world cur :
  let c := check_flight_price self world in
  is_lowest cur (flight_prices c) ->
  (fires c <->
   cur < price_threshold self /\
   (lowest_price_list self = None \/
    exists best, lowest_price_list self = Some best /\ cur < best))
  /\ (price_threshold self <= cur -> ~ fires c).
Proof.
  intros c Hlow. unfold fires.
  destruct (check_flight_price_cases self world) as [(E & _) | (cur' & payload & Hlow' & _ & H)];
    fold c in E || fold c in Hlow', H.
  - exfalso. exact (no_lowest_without_valid_prices _ _ E Hlow).
  - rewrite (is_lowest_unique _ _ _ Hlow' Hlow) in H. clear cur' Hlow'.
    unfold should_alert in H.
    destruct (Z.ltb_spec cur (price_threshold self)) as [Ht | Ht];
      [destruct (lowest_price_list self) as [best |];
       [destruct (Z.ltb_spec cur best) as [Hi | Hi] |] |];
      simpl in H; destruct H as (_ & -> & _).
    + split; [split; [intros _ | discriminate] | intros; lia].
      split; [assumption | right; exists best; auto].
    + split; [split; [intros F; now elim F | ] | intros _ F; now elim F].
      intros (_ & [F | (b & Eb & Hb)]); [discriminate | injection Eb as <-; lia].
    + split; [split; [intros _ | discriminate] | intros; lia]. auto.
    + split; [split; [intros F; now elim F | intros (F & _); lia] | intros _ F; now elim F].
Qed.

Lemma alert_fires_iff_below_threshold_and_improving_witness :
  is_lowest 7500
    (flight_prices
       (check_flight_price (__init__ one_url) (world_of (all_show "7 500 kr") true)))
  /\ fires (check_flight_price (__init__ one_url) (world_of (all_show "7 500 kr") true)).
Proof.
  assert (H : is_lowest 7500
    (flight_prices
       (check_flight_price (__init__ one_url) (world_of (all_show "7 500 kr") true)))).
  { split.
    - exists key_2111. vm_compute. left. reflexivity.
    - intros key price Hin. vm_compute in Hin. destruct Hin as [Hin | []].
      injection Hin as _ <-. lia. }
  split; [exact H |].
  apply (alert_fires_iff_below_threshold_and_improving
           (__init__ one_url) (world_of (all_show "7 500 kr") true) 7500 H).
  split; [vm_compute; reflexivity | left; reflexivity].
Defined.

(** *** The cycle that finds no valid price *)

(** C4: a cycle in which no observation has a parsed amount returns [False]
    and leaves both [lowest_price_list] and [last_price] as they were. *)
Theorem no_valid_price_fails_cycle self world :
  let c := check_flight_price self world in
  (forall key price, ~ In (key, Some price) (flight_prices c)) ->
  statue c = false /\
  lowest_price_list (monitor c) = lowest_price_list self /\
  last_price (monitor c) = last_price self.
Proof.
  intros c Hnone.
  destruct (check_flight_price_cases self world)
    as [(_ & Hs & Hm & _) | (cur & _ & [[key Hin] _] & _)]; fold c in Hs, Hm || fold c in Hin.
  - rewrite Hm. auto.
  - elim (Hnone key cur Hin).
Qed.

Lemma no_valid_price_fails_cycle_witness :
  (forall key price,
      ~ In (key, Some price)
          (flight_prices
             (check_flight_price (set_lowest_price_list (__init__ two_urls) 7500)
                                 (world_of (all_show "no price here") true))))
  /\ statue (check_flight_price (set_lowest_price_list (__init__ two_urls) 7500)
                                (world_of (all_show "no price here") true)) = false.
Proof.
  assert (H : forall key price,
      ~ In (key, Some price)
          (flight_prices
             (check_flight_price (set_lowest_price_list (__init__ two_urls) 7500)
                                 (world_of (all_show "no price here") true)))).
  { intros key price Hin. vm_compute in Hin.
    destruct Hin as [Hin | [Hin | []]]; discriminate Hin. }
  split; [exact H |].
  exact (proj1 (no_valid_price_fails_cycle
                  (set_lowest_price_list (__init__ two_urls) 7500)
                  (world_of (all_show "no price here") true) H)).
Defined.

(** *** The held best price *)

(** What a cycle does to [lowest_price_list]: it keeps it, or it fires and
    replaces it by a price below the threshold and below the old one. *)
Lemma held_price_step self world :
  let c := check_flight_price self world in
  lowest_price_list (monitor c) = lowest_price_list self \/
  (fires c /\
   exists cur, lowest_price_list (monitor c) = Some cur /\
     cur < price_threshold self /\
     forall best, lowest_price_list self = Some best -> cur < best).
Proof.
  intros c.
  destruct (check_flight_price_cases self world)
    as [(_ & _ & Hm & _) | (cur & payload & _ & _ & H)]; fold c in Hm || fold c in H.
  - left. rewrite Hm. reflexivity.
  - unfold should_alert in H.
    destruct (Z.ltb_spec cur (price_threshold self)) as [Ht | Ht];
      [destruct (lowest_price_list self) as [best |] eqn:Hb;
       [destruct (Z.ltb_spec cur best) as [Hi | Hi] |] |];
      simpl in H; destruct H as (Hm & Hc & _); rewrite Hm; simpl; auto.
    + right. split; [unfold fires; rewrite Hc; discriminate |].
      exists cur. repeat split; auto. intros b Eb. injection Eb as <-. exact Hi.
    + right. split; [unfold fires; rewrite Hc; discriminate |].
      exists cur. repeat split; auto. discriminate.
Qed.

Lemma price_threshold_step self world :
  price_threshold (monitor (check_flight_price self world)) = price_threshold self.
Proof.
  destruct (check_flight_price_cases self world)
    as [(_ & _ & -> & _) | (cur & payload & _ & _ & H)]; [reflexivity |].
  destruct (should_alert self cur); destruct H as (-> & _); reflexivity.
Qed.


Lemma after_app self worlds worlds' :
  after self (worlds ++ worlds') = after (after self worlds) worlds'.
Proof.
  revert self. induction worlds as [| w ws IH]; intros self; simpl; auto.
Qed.

Lemma held_price_never_rises worlds : forall self best,
  lowest_price_list self = Some best ->
  exists best', lowest_price_list (after self worlds) = Some best' /\ best' <= best.
Proof.
  induction worlds as [| w ws IH]; intros self best Hb; simpl.
  - exists best. split; [assumption | lia].
  - destruct (held_price_step self w) as [E | (_ & cur & E & _ & Hlt)].
    + rewrite <- E in Hb. exact (IH _ _ Hb).
    + destruct (IH _ _ E) as (b' & Eb' & Hle).
      exists b'. split; [assumption |]. specialize (Hlt _ Hb). lia.
Qed.

(** C2: at any point of any sequence of cycles, a cycle changes the held best
    price only if it fires, and a best price held at that point is never
    exceeded by the one held after any number of further cycles. *)
Theorem held_best_price_monotone self worlds world rest :
  let before := after self worlds in
  let c := check_flight_price before world in
  (lowest_price_list (monitor c) <> lowest_price_list before -> fires c) /\
  (forall best,
      lowest_price_list before = Some best ->
      exists best',
        lowest_price_list (after self (worlds ++ world :: rest)) = Some best' /\
        best' <= best).
Proof.
  intros before c. split.
  - intros Hne. destruct (held_price_step before world) as [E | (Hf & _)];
      [elim (Hne E) | exact Hf].
  - intros best Hb. rewrite after_app. fold before.
    exact (held_price_never_rises (world :: rest) before best Hb).
Qed.

(** C10: if the held best price is below the threshold (or unset) before a
    sequence of cycles, it is below the threshold (or unset) after it, and the
    threshold is the same. *)
Theorem held_best_price_below_threshold self worlds :
  held_below_threshold self ->
  held_below_threshold (after self worlds) /\
  price_threshold (after self worlds) = price_threshold self.
Proof.
  revert self. induction worlds as [| w ws IH]; intros self Hinv; simpl.
  - split; [assumption | reflexivity].
  - destruct (IH (monitor (check_flight_price self w))) as [Hinv' Ht].
    + intros best Hb. rewrite price_threshold_step.
      destruct (held_price_step self w) as [E | (_ & cur & E & Hlt & _)].
      * apply Hinv. rewrite <- E. exact Hb.
      * rewrite E in Hb. injection Hb as <-. exact Hlt.
    + split; [assumption |]. rewrite Ht. apply price_threshold_step.
Qed.

Lemma held_best_price_below_threshold_witness :
  held_below_threshold (__init__ one_url) /\
  held_below_threshold
    (after (__init__ one_url)
           [world_of (all_show "9 000 kr") true;
            world_of (all_show "7 500 kr") false;
            world_of (all_show "7 200 kr") true]).
Proof.
  assert (H : held_below_threshold (__init__ one_url))
    by (intros best Hb; vm_compute in Hb; discriminate Hb).
  split; [exact H |].
  exact (proj1 (held_best_price_below_threshold (__init__ one_url) _ H)).
Defined.

(** *** A send that fails *)

(** C3 on the code: first cycle, one itinerary at 7 500 kr, nothing held,
    and [send_email] returns [False].  The cycle is reported failed, yet the
    object already holds 7500 as its best price (and as its last price); the
    retry, with the same page and a working mail server, does not call
    [send_email] at all. *)
Theorem failed_send_keeps_new_best_price :
  let self := __init__ one_url in
  let c := check_flight_price self (world_of (all_show "7 500 kr") false) in
  let retry := check_flight_price (monitor c) (world_of (all_show "7 500 kr") true) in
  lowest_price_list self = None /\
  send_email_calls c = [[(key_2111, 7500)]] /\
  statue c = false /\
  lowest_price_list (monitor c) = Some 7500 /\
  last_price (monitor c) = Some 7500 /\
  send_email_calls retry = [] /\
  statue retry = true.
Proof. vm_compute. repeat split; reflexivity. Qed.

(** The same for every cycle: when the alert fires and the cycle is reported
    failed, the lowest price of the cycle is already held as the best price
    and as the last price. *)
Lemma failed_send_already_recorded self world cur :
  let c := check_flight_price self world in
  is_lowest cur (flight_prices c) ->
  fires c ->
  statue c = false ->
  lowest_price_list (monitor c) = Some cur /\ last_price (monitor c) = Some cur.
Proof.
  intros c Hlow Hf _.
  destruct (check_flight_price_cases self world)
    as [(_ & _ & _ & Hc) | (cur' & payload & Hlow' & _ & H)];
    fold c in Hc || fold c in Hlow', H.
  - elim (Hf Hc).
  - rewrite (is_lowest_unique _ _ _ Hlow' Hlow) in H.
    destruct (should_alert self cur); destruct H as (Hm & Hc & _).
    + rewrite Hm. auto.
    + elim (Hf Hc).
Qed.

(** *** Extraction failures *)

(** C5 on the code: two itineraries; the page of the first shows
    "7 500 kr", on the page of the second every selector times out.  The
    second observation is the text of the first page, and no page is saved.
    When every selector times out on every page, the observations are null
    but no page is saved either. *)
Theorem stale_raw_price_recorded_for_blank_page :
  fetch_flight_data (__init__ two_urls) second_page_blank
  = (Some [(key_2111, Some "7 500 kr"); (key_2110, Some "7 500 kr")], [])
  /\
  fetch_flight_data (__init__ two_urls) all_blank
  = (Some [(key_2111, None); (key_2110, None)], []).
Proof. vm_compute. split; reflexivity. Qed.

(** The one path that saves a page: a selector located an element, and the
    text last read from a located element is empty. *)
Example page_saved_when_text_empty :
  fetch_flight_data (__init__ one_url) (all_show "")
  = (Some [(key_2111, None)], [("debug_page_GOT-BJS_20251221_20260111.html", "<html></html>")]).
Proof. vm_compute. reflexivity. Qed.

Lemma try_selectors_all_time_out locate selectors raw_price :
  (forall selector, locate selector = Raised TimeoutException) ->
  try_selectors locate selectors raw_price = (Returned tt, raw_price).
Proof.
  intros Hto. induction selectors as [| selector rest IH]; simpl.
  - reflexivity.
  - rewrite Hto. exact IH.
Qed.

(** The same for every key but the first to bind [raw_price]: when all
    selectors time out on its page, the text left over from an earlier key is
    recorded for it and no page is saved. *)
Lemma blank_page_repeats_earlier_text driver st key url text :
  accept_cookies driver url = Returned tt ->
  (forall selector, wait_until driver url selector = Raised TimeoutException) ->
  raw_price st = Some text ->
  truthy text = true ->
  fetch_key driver st (key, url)
  = {| raw_price := Some text;
       flight_data := flight_data st ++ [(key, Some text)];
       debug_pages := debug_pages st |}.
Proof.
  intros Hc Hto Hr Ht. unfold fetch_key. rewrite Hc.
  rewrite (try_selectors_all_time_out _ _ _ Hto), Hr, Ht. reflexivity.
Qed.

(** ** The polling loop *)











Example run_five_turns :
  let self := __init__ one_url in
  let turns :=
    [ mkTurn (world_of (all_show "9 000 kr") true) None false clock_room;
      mkTurn (world_of (all_show "7 500 kr") false) None false clock_room;
      mkTurn no_driver None false clock_room;
      mkTurn (world_of (all_show "7 500 kr") true) None true clock_room;
      mkTurn (world_of (all_show "7 000 kr") true) None false clock_room ] in
  map (fun e => match e with
                | Checked cycle => (Some (statue cycle), 0)
                | Sleep seconds => (None, seconds)
                end) (trace (run self turns))
  = [(Some true, 0); (None, 1800); (Some false, 0); (None, 60);
     (Some false, 0); (None, 60); (Some true, 0); (None, 1800)] /\
  exited (run self turns) = Some StoppedByUser /\
  lowest_price_list (final (run self turns)) = Some 7500.
Proof. vm_compute. repeat split; reflexivity. Qed.

(** The interrupt that arrives while the mail is being sent: the loop breaks
    with the new best price already held and the last price not yet. *)
Example run_interrupted_while_notifying :
  let r := run (__init__ one_url)
               [mkTurn (world_of (all_show "7 500 kr") true) (Some WhileNotifying)
                       false clock_room] in
  exited r = Some StoppedByUser /\ trace r = [] /\
  lowest_price_list (final r) = Some 7500 /\ last_price (final r) = None.
Proof. vm_compute. repeat split; reflexivity. Qed.

(** An interval the interpreter cannot express: the sleep and the handler's
    sleep are both refused, and the loop is left. *)
Example run_interval_too_long :
  let self := with_intervals (__init__ one_url) (sleep_max + 1) 60 in
  let turn := mkTurn (world_of (all_show "9 000 kr") true) None false clock_room in
  exited (run self [turn]) = Some ErrorPropagated.
Proof. vm_compute. reflexivity. Qed.

(** ** More on key generation *)

Section KeyGeneratorOrder.

Variable title : string.
Variables first_date last_date : date.
Variable shortest : Z.

Lemma StronglySorted_app {A : Type} (R : A -> A -> Prop) (l1 l2 : list A) :
  StronglySorted R l1 ->
  StronglySorted R l2 ->
  (forall a b, In a l1 -> In b l2 -> R a b) ->
  StronglySorted R (l1 ++ l2).
Proof.
  intros H1 H2 H12. induction H1 as [| a l1 Hs IH Hall]; simpl.
  - exact H2.
  - constructor.
    + apply IH. intros x y Hx Hy. apply H12; [now right | exact Hy].
    + apply Forall_app. split; [exact Hall |].
      apply Forall_forall. intros y Hy. apply H12; [now left | exact Hy].
Qed.

Lemma shifted_sorted dep ret n :
  StronglySorted generated_before (shifted title dep ret n).
Proof.
  revert dep ret. induction n as [| n IH]; intros dep ret.
  - constructor.
  - rewrite shifted_S. constructor; [apply IH |].
    apply Forall_forall. intros k Hk. apply in_shifted in Hk.
    destruct Hk as (i & Hi & ->). right. unfold trip_length. simpl. lia.
Qed.

Lemma sweep_sorted range_length dep ret keys :
  dep = first_date ->
  ret = first_date + (range_length - 1) ->
  StronglySorted generated_before keys ->
  (forall k, In k keys -> range_length < trip_length k) ->
  StronglySorted generated_before
    (sweep title first_date last_date shortest range_length dep ret keys).
Proof.
  funelim (sweep title first_date last_date shortest range_length dep ret keys);
    intros Hdep Hret Hs Hlen; [| assumption].
  cbv zeta in *. subst dep_date return_date.
  match goal with IH : _ -> _ -> _ -> _ -> StronglySorted _ _ |- _ => apply IH; clear IH end;
    try reflexivity; rewrite slide_eq by lia.
  - apply StronglySorted_app; [assumption | apply shifted_sorted |].
    intros a b Ha Hb. apply Hlen in Ha. apply in_shifted in Hb.
    destruct Hb as (i & _ & ->). left. unfold trip_length in *. simpl. lia.
  - intros k Hk. apply in_app_iff in Hk. destruct Hk as [Hk | Hk].
    + apply Hlen in Hk. lia.
    + apply in_shifted in Hk. destruct Hk as (i & _ & ->).
      unfold trip_length. simpl. lia.
Qed.

Lemma length_shifted dep ret n : List.length (shifted title dep ret n) = n.
Proof. unfold shifted. rewrite length_map, length_seq. reflexivity. Qed.

(** Twice the number of keys the outer loop adds, entered at its loop head
    with a trip length no longer than the window: the difference of two
    triangular numbers. *)
Lemma length_sweep range_length dep ret keys :
  dep = first_date ->
  ret = first_date + (range_length - 1) ->
  shortest - 1 <= range_length <= last_date - first_date + 1 ->
  2 * Z.of_nat (List.length
                  (sweep title first_date last_date shortest range_length dep ret keys))
  = 2 * Z.of_nat (List.length keys)
    + (last_date - first_date + 2 - shortest) * (last_date - first_date + 3 - shortest)
    - (last_date - first_date + 1 - range_length) * (last_date - first_date + 2 - range_length).
Proof.
  funelim (sweep title first_date last_date shortest range_length dep ret keys);
    intros Hdep Hret Hrange.
  - pose proof (proj1 (Z.geb_le _ _) e) as Hc. cbv zeta in *.
    subst dep_date return_date.
    match goal with IH : _ -> _ -> _ -> 2 * _ = _ |- _ => rewrite IH by (try reflexivity; lia) end.
    rewrite slide_eq by lia. rewrite length_app, length_shifted. nia.
  - pose proof e as Hc. rewrite Z.geb_leb in Hc. apply Z.leb_gt in Hc.
    assert (range_length = shortest - 1) by lia. subst range_length. nia.
Qed.

End KeyGeneratorOrder.

(** X1: the generator returns exactly the pairs inside the window whose trip
    length lies between the minimum and the window length: every contiguous
    sub-range of the window that is long enough is generated, and nothing
    else. *)
Theorem generated_keys_exactly title first_date last_date shortest k :
  exists keys,
    setup_keys_names title first_date last_date shortest = Returned keys /\
    (In k keys <->
     key_title k = title /\
     shortest <= trip_length k <= last_date - first_date + 1 /\
     first_date <= departDate k /\ returnDate k <= last_date).
Proof.
  eexists. split; [reflexivity |]. cbv zeta.
  rewrite in_sweep by (reflexivity || lia). simpl. tauto.
Qed.

(** X2: with [n] the number of admissible trip lengths (window length minus
    minimum plus one, or 0 when that is negative), the generator returns
    [n * (n + 1) / 2] keys. *)
Theorem generated_keys_count title first_date last_date shortest :
  exists keys,
    setup_keys_names title first_date last_date shortest = Returned keys /\
    let n := Z.max 0 (last_date - first_date + 1 - shortest + 1) in
    2 * Z.of_nat (List.length keys) = n * (n + 1).
Proof.
  eexists. split; [reflexivity |]. cbv zeta.
  destruct (Z_le_gt_dec (shortest - 1) (last_date - first_date + 1)) as [Hle | Hgt].
  - rewrite length_sweep by (reflexivity || lia). simpl List.length.
    rewrite Z.max_r by lia. nia.
  - rewrite Z.max_l by lia.
    destruct (sweep title first_date last_date shortest
                (last_date - first_date + 1) first_date last_date [])
      as [| k keys] eqn:E; [reflexivity | exfalso].
    assert (Hin : In k (sweep title first_date last_date shortest
                          (last_date - first_date + 1) first_date last_date []))
      by (rewrite E; now left).
    apply in_sweep in Hin; [| reflexivity | lia].
    destruct Hin as [[] | (_ & Hl & _)]. lia.
Qed.

(** X3: the keys come out longest trip first, and among trips of one length
    in order of departure; any key earlier in the list is longer than, or as
    long as and departing before, any key later in it. *)
Theorem generated_keys_longest_first title first_date last_date shortest :
  exists keys,
    setup_keys_names title first_date last_date shortest = Returned keys /\
    StronglySorted generated_before keys.
Proof.
  eexists. split; [reflexivity |].
  apply sweep_sorted; [reflexivity | lia | constructor |].
  intros k [].
Qed.

(** ** [parse_price] *)

Lemma all_digits_sub_non_digits s : all_digits (sub_non_digits s) = true.
Proof.
  induction s as [| c s IH]; simpl; [reflexivity |].
  destruct (is_digit c) eqn:Hc; simpl; [rewrite Hc |]; exact IH.
Qed.

Lemma prefix_empty s : String.prefix EmptyString s = true.
Proof. destruct s; reflexivity. Qed.

Lemma prefix_cons c p c' s :
  String.prefix (String c p) (String c' s) = true ->
  c = c' /\ String.prefix p s = true.
Proof.
  simpl. destruct (ascii_dec c c') as [-> | _]; [auto | discriminate].
Qed.

Lemma sub_non_digits_no_digit c p :
  sub_non_digits (String c p) = EmptyString ->
  is_digit c = false /\ sub_non_digits p = EmptyString.
Proof.
  simpl. destruct (is_digit c); [discriminate | auto].
Qed.

(** Deleting the occurrences of a digit-free text leaves the digits of a
    string as they are. *)
Lemma sub_non_digits_replace_from old : forall s skip p,
  old <> EmptyString ->
  sub_non_digits old = EmptyString ->
  String.length p = skip ->
  sub_non_digits p = EmptyString ->
  String.prefix p s = true ->
  sub_non_digits (replace_from old EmptyString skip s) = sub_non_digits s.
Proof.
  intros s. induction s as [| c s IH]; intros skip p Hne Hold Hlen Hp Hpre.
  - reflexivity.
  - destruct p as [| c' p]; simpl in Hlen; subst skip.
    + cbn [replace_from].
      destruct (String.prefix old (String c s)) eqn:Hmatch.
      * destruct old as [| c' old'].
        -- elim Hne. reflexivity.
        -- apply prefix_cons in Hmatch. destruct Hmatch as [<- Hmatch].
           apply sub_non_digits_no_digit in Hold. destruct Hold as [Hc' Hold'].
           simpl. rewrite Hc'.
           apply (IH (String.length old') old'); auto.
           simpl. rewrite Hc'. exact Hold'.
      * simpl. destruct (is_digit c).
        -- f_equal. exact (IH O EmptyString Hne Hold eq_refl eq_refl (prefix_empty s)).
        -- exact (IH O EmptyString Hne Hold eq_refl eq_refl (prefix_empty s)).
    + apply prefix_cons in Hpre. destruct Hpre as [<- Hpre].
      apply sub_non_digits_no_digit in Hp. destruct Hp as [Hc' Hp].
      simpl. rewrite Hc'. exact (IH _ p Hne Hold eq_refl Hp Hpre).
Qed.

Lemma sub_non_digits_replace old s :
  old <> EmptyString ->
  sub_non_digits old = EmptyString ->
  sub_non_digits (replace old EmptyString s) = sub_non_digits s.
Proof.
  intros Hne Hold. unfold replace.
  apply (sub_non_digits_replace_from old s O EmptyString); auto.
  apply prefix_empty.
Qed.

Lemma int_from_nonneg s : forall acc,
  0 <= acc -> all_digits s = true -> 0 <= int_from acc s.
Proof.
  induction s as [| c s IH]; intros acc Hacc Hd; cbn [int_from all_digits] in *.
  - exact Hacc.
  - apply andb_prop in Hd. destruct Hd as [Hc Hd]. apply IH; [| exact Hd].
    unfold is_digit in Hc. apply andb_prop in Hc. destruct Hc as [Hlo _].
    apply Nat.leb_le in Hlo. lia.
Qed.

Lemma parse_price_flat_map flight_raw_price :
  parse_price flight_raw_price
  = flat_map (fun entry : string * option string =>
                match snd entry with
                | None => []
                | Some raw_price => [(fst entry, amount_of raw_price)]
                end) flight_raw_price.
Proof.
  induction flight_raw_price as [| [key [raw |]] rest IH]; simpl.
  - reflexivity.
  - rewrite IH. f_equal. unfold amount_of, isdigit, int.
    rewrite !sub_non_digits_replace by (discriminate || reflexivity).
    rewrite all_digits_sub_non_digits, andb_true_r, Nat.ltb_antisym.
    destruct (truthy (sub_non_digits raw)); [| reflexivity].
    cbn [andb].
    destruct (Nat.leb (String.length (sub_non_digits raw)) int_max_str_digits);
      reflexivity.
  - exact IH.
Qed.

(** X4: [parse_price] drops the observations without text and keeps the
    others in order; the amount of each is the number spelled by the digits
    of its text, whatever stands between them, and null when the text has no
    digit or more than 4300 of them (where [int] raises and the handler of
    lines 244-246 records null).  The three [replace] calls change nothing in
    the result. *)
Theorem parse_price_reads_digits flight_raw_price :
  parse_price flight_raw_price
  = flat_map (fun entry : string * option string =>
                match snd entry with
                | None => []
                | Some raw_price => [(fst entry, amount_of raw_price)]
                end) flight_raw_price.
Proof. exact (parse_price_flat_map flight_raw_price). Qed.

(** X5: every amount [parse_price] produces is a non-negative integer. *)
Theorem parse_price_nonnegative flight_raw_price key price :
  In (key, Some price) (parse_price flight_raw_price) -> 0 <= price.
Proof.
  rewrite parse_price_flat_map. intros Hin.
  apply in_flat_map in Hin. destruct Hin as ([k [raw |]] & _ & Hin); simpl in Hin.
  - destruct Hin as [E | []]. unfold amount_of in E.
    destruct (truthy (sub_non_digits raw)
              && Nat.leb (String.length (sub_non_digits raw)) int_max_str_digits);
      [| discriminate].
    injection E as _ <-. apply int_from_nonneg; [lia | apply all_digits_sub_non_digits].
  - elim Hin.
Qed.

Lemma parse_price_nonnegative_witness :
  In (key_2111, Some 129950)
     (parse_price [(key_2110, None); (key_2111, Some "fr. 1.299,50 kr")])
  /\ 0 <= 129950.
Proof.
  assert (H : In (key_2111, Some 129950)
                 (parse_price [(key_2110, None); (key_2111, Some "fr. 1.299,50 kr")]))
    by (vm_compute; left; reflexivity).
  split; [exact H |].
  exact (parse_price_nonnegative _ _ _ H).
Defined.

(** One digit more than [int] converts: the handler records a null amount. *)
Example parse_price_too_many_digits :
  let digits := string_of_list_ascii (repeat "1"%char 4301) in
  parse_price [(key_2111, Some (digits ++ " kr")%string)] = [(key_2111, None)] /\
  exists price,
    parse_price [(key_2111, Some (substring 1 4300 digits ++ " kr")%string)]
    = [(key_2111, Some price)].
Proof. vm_compute. split; [reflexivity | eexists; reflexivity]. Qed.

(** ** [fetch_flight_data] *)

Lemma try_selectors_skip locate before rest : forall raw_price,
  (forall selector, In selector before -> gives_up (locate selector)) ->
  exists raw_price',
    try_selectors locate (before ++ rest) raw_price
    = try_selectors locate rest raw_price'.
Proof.
  induction before as [| s before IH]; intros raw_price Hgive; simpl.
  - exists raw_price. reflexivity.
  - destruct (Hgive s (or_introl eq_refl)) as [-> | (text & -> & Hno)].
    + apply IH. intros s' Hs'. apply Hgive. now right.
    + unfold finds_price in Hno. rewrite Hno.
      apply IH. intros s' Hs'. apply Hgive. now right.
Qed.

(** X6: the first selector whose element text is non-empty and contains
    "kr" ends the selector loop with that text, whatever [raw_price] held
    before and whatever the later selectors would have located. *)
Theorem first_matching_selector_wins locate before selector rest raw_price text :
  (forall s, In s before -> gives_up (locate s)) ->
  locate selector = Returned text ->
  finds_price text = true ->
  try_selectors locate (before ++ selector :: rest) raw_price
  = (Returned tt, Some text).
Proof.
  intros Hgive Hloc Hfind.
  destruct (try_selectors_skip locate before (selector :: rest) raw_price Hgive)
    as (raw_price' & ->).
  simpl. rewrite Hloc. unfold finds_price in Hfind. rewrite Hfind. reflexivity.
Qed.

Lemma first_matching_selector_wins_witness :
  (forall s, In s ["//a"] ->
             gives_up ((fun selector => if (selector =? "//b")%string
                                        then Returned "7 500 kr"
                                        else Returned "Logga in") s))
  /\ try_selectors (fun selector => if (selector =? "//b")%string
                                    then Returned "7 500 kr"
                                    else Returned "Logga in")
                   (["//a"] ++ "//b" :: ["//c"]) (Some "9 000 kr")
     = (Returned tt, Some "7 500 kr").
Proof.
  assert (H : forall s, In s ["//a"] ->
             gives_up ((fun selector => if (selector =? "//b")%string
                                        then Returned "7 500 kr"
                                        else Returned "Logga in") s)).
  { intros s [<- | []]. right. exists "Logga in". split; reflexivity. }
  split; [exact H |].
  exact (first_matching_selector_wins _ ["//a"] "//b" ["//c"] (Some "9 000 kr")
           "7 500 kr" H eq_refl eq_refl).
Defined.

(** X7: when a selector of the chain finds a price on the page of a key (and
    the consent block returns or times out), the observation recorded for the
    key is that text and no page is saved, whatever the earlier keys left in
    [raw_price]. *)
Theorem located_price_recorded driver st key url before selector rest text :
  price_selectors = before ++ selector :: rest ->
  accept_cookies driver url = Returned tt \/
  accept_cookies driver url = Raised TimeoutException ->
  (forall s, In s before -> gives_up (wait_until driver url s)) ->
  wait_until driver url selector = Returned text ->
  finds_price text = true ->
  fetch_key driver st (key, url)
  = {| raw_price := Some text;
       flight_data := flight_data st ++ [(key, Some text)];
       debug_pages := debug_pages st |}.
Proof.
  intros Hsel Hcookie Hgive Hloc Hfind. unfold fetch_key. rewrite Hsel.
  destruct (try_selectors_skip (wait_until driver url) before (selector :: rest)
              (raw_price st) Hgive) as (raw_price' & ->).
  simpl. rewrite Hloc. pose proof Hfind as Hfind'. unfold finds_price in Hfind'.
  rewrite Hfind'. apply andb_prop in Hfind'. destruct Hfind' as [Ht _].
  destruct Hcookie as [-> | ->]; rewrite Ht; reflexivity.
Qed.

Lemma located_price_recorded_witness :
  fetch_key second_page_blank
            {| raw_price := Some "9 000 kr";
               flight_data := [(key_2110, Some "9 000 kr")];
               debug_pages := [] |}
            (key_2111, url_2111)
  = {| raw_price := Some "7 500 kr";
       flight_data := [(key_2110, Some "9 000 kr")] ++ [(key_2111, Some "7 500 kr")];
       debug_pages := [] |}.
Proof.
  refine (located_price_recorded second_page_blank _ key_2111 url_2111
            [] (hd EmptyString price_selectors) (tl price_selectors) "7 500 kr"
            eq_refl (or_introl eq_refl) _ eq_refl eq_refl).
  intros s [].
Defined.

(** Adding what one more entry contributed keeps [fetched]. *)
Lemma fetched_extend driver seen st key url group st' :
  fetched driver seen st ->
  contributed driver (key, url) group ->
  flight_data st' = flight_data st ++ group ->
  debug_pages st' = debug_pages st \/
  (exists content,
      debug_pages st' = debug_pages st ++ [(debug_page_name key, content)] /\
      open_fails driver (debug_page_name key) = false /\
      page_left driver (debug_page_name key) url content /\
      In (key, None) group) ->
  fetched driver (seen ++ [(key, url)]) st'.
Proof.
  intros ((groups & Hdata & Hgroups) & Hpages) Hgroup Hdata' Hpages'. split.
  - exists (groups ++ [group]). split.
    + rewrite Hdata', Hdata, concat_app. simpl. rewrite app_nil_r. reflexivity.
    + apply Forall2_app; [exact Hgroups | constructor; [exact Hgroup | constructor]].
  - assert (Hold : forall name content,
               In (name, content) (debug_pages st) ->
               exists k u,
                 In (k, u) (seen ++ [(key, url)]) /\ name = debug_page_name k /\
                 open_fails driver name = false /\
                 page_left driver name u content /\
                 In (k, None) (flight_data st')).
    { intros name content Hin.
      destruct (Hpages _ _ Hin) as (k & u & Hk & Hn & Ho & Hl & Hd).
      exists k, u. rewrite Hdata', !in_app_iff. auto 6. }
    intros name content Hin.
    destruct Hpages' as [E | (c & E & Ho & Hl & Hg)]; rewrite E in Hin.
    + exact (Hold _ _ Hin).
    + apply in_app_iff in Hin. destruct Hin as [Hin | [Hin | []]].
      * exact (Hold _ _ Hin).
      * injection Hin as <- <-. exists key, url.
        rewrite Hdata', !in_app_iff. simpl. auto 8.
Qed.

Lemma fetch_except_fetched driver seen st key url raw_price :
  fetched driver seen st ->
  fetched driver (seen ++ [(key, url)]) (fetch_except key raw_price st).
Proof.
  intros H. apply (fetched_extend driver seen st key url [(key, None)]); auto.
  left. exists None. split; [reflexivity | discriminate].
Qed.

Lemma save_debug_page_fetched driver seen st key url bound :
  fetched driver seen st ->
  fetched driver (seen ++ [(key, url)])
    (save_debug_page driver key url
       {| raw_price := bound;
          flight_data := flight_data st ++ [(key, None)];
          debug_pages := debug_pages st |}).
Proof.
  intros H. unfold save_debug_page. cbn [raw_price flight_data debug_pages].
  fold (debug_page_name key).
  destruct (open_fails driver (debug_page_name key)) eqn:Ho.
  - apply (fetched_extend driver seen st key url [(key, None); (key, None)]); auto.
    + right. split; [reflexivity | left; exact Ho].
    + simpl. rewrite <- app_assoc. reflexivity.
  - destruct (page_source driver url) as [source | e] eqn:Hs.
    + destruct (write_fails driver (debug_page_name key) source) as [remains |] eqn:Hw.
      * apply (fetched_extend driver seen st key url [(key, None); (key, None)]); auto.
        -- right. split; [reflexivity |]. right; right. exists source, remains. auto.
        -- simpl. rewrite <- app_assoc. reflexivity.
        -- right. exists remains. simpl. repeat split; auto.
           unfold page_left. rewrite Hs, Hw. reflexivity.
      * apply (fetched_extend driver seen st key url [(key, None)]); auto.
        -- left. exists None. split; [reflexivity | discriminate].
        -- right. exists source. simpl. repeat split; auto.
           unfold page_left. rewrite Hs, Hw. reflexivity.
    + apply (fetched_extend driver seen st key url [(key, None); (key, None)]); auto.
      * right. split; [reflexivity |]. right; left. exists e. exact Hs.
      * simpl. rewrite <- app_assoc. reflexivity.
      * right. exists EmptyString. simpl. repeat split; auto.
        unfold page_left. rewrite Hs. reflexivity.
Qed.

Lemma fetch_key_fetched driver seen st key url :
  fetched driver seen st ->
  fetched driver (seen ++ [(key, url)]) (fetch_key driver st (key, url)).
Proof.
  intros H. unfold fetch_key.
  destruct (accept_cookies driver url) as [[] | []];
    try (apply fetch_except_fetched; exact H).
  all: destruct (try_selectors (wait_until driver url) price_selectors (raw_price st))
    as [[[] | e] [text |]]; try (apply fetch_except_fetched; exact H).
  all: destruct (truthy text) eqn:Ht;
    try (apply save_debug_page_fetched; exact H).
  all: apply (fetched_extend driver seen st key url [(key, Some text)]); auto.
  all: left; exists (Some text); split; [reflexivity |].
  all: intros t E; injection E as <-; exact Ht.
Qed.

Lemma fold_fetch_key_fetched driver urls : forall seen st,
  fetched driver seen st ->
  fetched driver (seen ++ urls) (fold_left (fetch_key driver) urls st).
Proof.
  induction urls as [| [key url] urls IH]; intros seen st H; simpl.
  - rewrite app_nil_r. exact H.
  - replace (seen ++ (key, url) :: urls) with ((seen ++ [(key, url)]) ++ urls)
      by (rewrite <- app_assoc; reflexivity).
    apply IH. apply fetch_key_fetched. exact H.
Qed.

Lemma fetch_flight_data_fetched self driver :
  fetched driver (urls self)
    (fold_left (fetch_key driver) (urls self)
               {| raw_price := None; flight_data := []; debug_pages := [] |}).
Proof.
  apply (fold_fetch_key_fetched driver (urls self) []).
  split.
  - exists []. split; [reflexivity | constructor].
  - intros name content [].
Qed.

Lemma contributed_not_nil driver entry group :
  contributed driver entry group -> group <> [].
Proof. intros [(obs & -> & _) | (-> & _)]; discriminate. Qed.

(** X8: [fetch_flight_data] returns [None] exactly when there is no URL;
    otherwise every URL contributes, in the order of [self.urls] and under
    its key, one observation whose text if any is not empty, or two null
    observations when saving its debug page raises. *)
Theorem observations_per_url self driver :
  match fst (fetch_flight_data self driver) with
  | None => urls self = []
  | Some flight_data =>
      urls self <> [] /\
      exists groups,
        flight_data = List.concat groups /\
        Forall2 (contributed driver) (urls self) groups
  end.
Proof.
  destruct (fetch_flight_data_fetched self driver) as ((groups & Hdata & Hgroups) & _).
  unfold fetch_flight_data.
  destruct (flight_data (fold_left (fetch_key driver) (urls self) _))
    as [| obs data]; simpl.
  - destruct Hgroups as [| entry group seen groups Hg _]; [reflexivity |].
    apply contributed_not_nil in Hg. destruct group; [elim Hg; reflexivity |].
    discriminate Hdata.
  - split.
    + intros E. rewrite E in Hgroups. inversion Hgroups; subst. discriminate Hdata.
    + exists groups. auto.
Qed.

(** X9: every debug page opened in a pass is named after the key of one of
    the URLs, the observation recorded for that key in the same pass is
    null, and the file holds the page source when reading and writing it
    worked, nothing when reading the page source raised, and what the failed
    write left otherwise. *)
Theorem saved_page_has_null_observation self driver name content :
  In (name, content) (snd (fetch_flight_data self driver)) ->
  exists key url flight_data,
    In (key, url) (urls self) /\
    name = debug_page_name key /\
    page_left driver name url content /\
    fst (fetch_flight_data self driver) = Some flight_data /\
    In (key, None) flight_data.
Proof.
  destruct (fetch_flight_data_fetched self driver) as (_ & Hpages).
  unfold fetch_flight_data.
  destruct (flight_data (fold_left (fetch_key driver) (urls self) _))
    as [| obs data] eqn:E; simpl; intros Hin;
    destruct (Hpages _ _ Hin) as (key & url & Hk & Hn & _ & Hl & Hd).
  - elim Hd.
  - exists key, url, (obs :: data). auto.
Qed.

Lemma saved_page_has_null_observation_witness :
  exists key url flight_data,
    In (key, url) (urls (__init__ one_url)) /\
    "debug_page_GOT-BJS_20251221_20260111.html" = debug_page_name key /\
    page_left (browser_losing_session (fun _ => Some ""))
              "debug_page_GOT-BJS_20251221_20260111.html" url "" /\
    fst (fetch_flight_data (__init__ one_url) (browser_losing_session (fun _ => Some "")))
    = Some flight_data /\
    In (key, None) flight_data.
Proof.
  apply (saved_page_has_null_observation
           (__init__ one_url) (browser_losing_session (fun _ => Some ""))).
  vm_compute. left. reflexivity.
Defined.

(** The page that cannot be read: the key gets two null observations and an
    empty file. *)
Example unreadable_page_doubles_observation :
  fetch_flight_data (__init__ one_url) (browser_losing_session (fun _ => Some ""))
  = (Some [(key_2111, None); (key_2111, None)],
     [("debug_page_GOT-BJS_20251221_20260111.html", "")]).
Proof. vm_compute. reflexivity. Qed.

(** ** More on [check_flight_price] *)

(** The second case of [check_flight_price_cases], for the lowest valid
    price of the cycle. *)
Lemma check_flight_price_at_lowest self world cur :
  let c := check_flight_price self world in
  is_lowest cur (flight_prices c) ->
  let payload := filter (fun price => snd price <? price_threshold self)
                        (valid_prices (flight_prices c)) in
  if should_alert self cur
  then monitor c = set_last_price (set_lowest_price_list self cur) cur /\
       send_email_calls c = [payload] /\
       statue c = send_email world payload
  else monitor c = set_last_price self cur /\
       send_email_calls c = [] /\
       statue c = true.
Proof.
  intros c Hlow payload.
  destruct (check_flight_price_cases self world)
    as [(E & _) | (cur' & payload' & Hlow' & Hp & H)];
    fold c in E || fold c in Hlow', Hp, H.
  - elim (no_lowest_without_valid_prices _ _ E Hlow).
  - rewrite (is_lowest_unique _ _ _ Hlow' Hlow) in H. subst payload'. exact H.
Qed.

Lemma fires_iff_should_alert self world cur :
  let c := check_flight_price self world in
  is_lowest cur (flight_prices c) ->
  (fires c <-> should_alert self cur = true).
Proof.
  intros c Hlow. pose proof (check_flight_price_at_lowest self world cur Hlow) as H.
  fold c in H. cbv zeta in H. unfold fires.
  destruct (should_alert self cur); destruct H as (_ & -> & _).
  - split; [reflexivity | discriminate].
  - split; [intros F; now elim F | discriminate].
Qed.

Lemma fires_has_lowest self world :
  let c := check_flight_price self world in
  fires c -> exists cur, is_lowest cur (flight_prices c).
Proof.
  intros c Hf.
  destruct (check_flight_price_cases self world)
    as [(_ & _ & _ & Hc) | (cur & _ & Hlow & _)]; fold c in Hc || fold c in Hlow.
  - elim (Hf Hc).
  - exists cur. exact Hlow.
Qed.

(** X10: when the alert fires, [send_email] is called once, with exactly the
    valid observations of the cycle that are strictly below the threshold,
    and that list is not empty. *)
Theorem alert_payload_is_all_below_threshold self world :
  let c := check_flight_price self world in
  fires c ->
  exists payload,
    send_email_calls c = [payload] /\
    payload <> [] /\
    forall key price,
      In (key, price) payload <->
      In (key, Some price) (flight_prices c) /\ price < price_threshold self.
Proof.
  intros c Hf. destruct (fires_has_lowest self world Hf) as (cur & Hlow). fold c in Hlow.
  pose proof (proj1 (fires_iff_should_alert self world cur Hlow) Hf) as Hsa.
  pose proof (check_flight_price_at_lowest self world cur Hlow) as H.
  fold c in H. cbv zeta in H. rewrite Hsa in H. destruct H as (_ & Hc & _).
  eexists. split; [exact Hc |].
  assert (Hmem : forall key price,
             In (key, price)
                (filter (fun price => snd price <? price_threshold self)
                        (valid_prices (flight_prices c))) <->
             In (key, Some price) (flight_prices c) /\ price < price_threshold self).
  { intros key price. rewrite filter_In, in_valid_prices. simpl.
    rewrite Z.ltb_lt. reflexivity. }
  split; [| exact Hmem].
  destruct Hlow as [[key Hin] _].
  unfold should_alert in Hsa. apply andb_prop in Hsa. destruct Hsa as [Ht _].
  apply Z.ltb_lt in Ht.
  intros E. pose proof (proj2 (Hmem key cur) (conj Hin Ht)) as Hin'.
  rewrite E in Hin'. exact Hin'.
Qed.

Lemma alert_payload_is_all_below_threshold_witness :
  exists payload,
    send_email_calls
      (check_flight_price (__init__ one_url) (world_of (all_show "7 500 kr") true))
    = [payload] /\
    payload <> [] /\
    forall key price,
      In (key, price) payload <->
      In (key, Some price)
         (flight_prices
            (check_flight_price (__init__ one_url) (world_of (all_show "7 500 kr") true)))
      /\ price < price_threshold (__init__ one_url).
Proof.
  apply (alert_payload_is_all_below_threshold
           (__init__ one_url) (world_of (all_show "7 500 kr") true)).
  vm_compute. discriminate.
Defined.

(** X11: a cycle returns [True] exactly when it found a valid price and every
    call of [send_email] it made returned [True]; a cycle that does not fire
    and has a valid price always succeeds. *)
Theorem cycle_succeeds_iff self world :
  let c := check_flight_price self world in
  statue c = true <->
  (exists key price, In (key, Some price) (flight_prices c)) /\
  (forall payload, In payload (send_email_calls c) -> send_email world payload = true).
Proof.
  intros c.
  destruct (check_flight_price_cases self world)
    as [(E & Hs & _ & Hc) | (cur & payload & Hlow & _ & H)];
    fold c in E, Hs, Hc || fold c in Hlow, H.
  - rewrite Hs. split; [discriminate |].
    intros [(key & price & Hin) _]. apply in_valid_prices in Hin.
    rewrite E in Hin. elim Hin.
  - assert (Hex : exists key price, In (key, Some price) (flight_prices c)).
    { destruct Hlow as [[key Hin] _]. exists key, cur. exact Hin. }
    destruct (should_alert self cur); destruct H as (_ & Hc & Hs); rewrite Hc, Hs.
    + split.
      * intros Hsend. split; [exact Hex |]. intros p [<- | []]. exact Hsend.
      * intros [_ Hall]. apply Hall. now left.
    + split; [| reflexivity]. intros _. split; [exact Hex |]. intros p [].
Qed.

(** X12: in a cycle that has a valid price, [last_price] becomes the lowest
    valid price, whether or not the alert fires and whether or not the mail
    goes out; the held best price becomes that price when the alert fires
    and is kept otherwise. *)
Theorem cycle_records_lowest_price self world cur :
  let c := check_flight_price self world in
  is_lowest cur (flight_prices c) ->
  last_price (monitor c) = Some cur /\
  (fires c -> lowest_price_list (monitor c) = Some cur) /\
  (~ fires c -> lowest_price_list (monitor c) = lowest_price_list self).
Proof.
  intros c Hlow. pose proof (check_flight_price_at_lowest self world cur Hlow) as H.
  fold c in H. cbv zeta in H. unfold fires.
  destruct (should_alert self cur); destruct H as (-> & -> & _); simpl.
  - repeat split; auto. intros F. elim F. discriminate.
  - repeat split; auto. intros F. now elim F.
Qed.

Lemma cycle_records_lowest_price_witness :
  is_lowest 7500
    (flight_prices
       (check_flight_price (__init__ one_url) (world_of (all_show "7 500 kr") false)))
  /\ last_price
       (monitor
          (check_flight_price (__init__ one_url) (world_of (all_show "7 500 kr") false)))
     = Some 7500.
Proof.
  assert (H : is_lowest 7500
    (flight_prices
       (check_flight_price (__init__ one_url) (world_of (all_show "7 500 kr") false)))).
  { split.
    - exists key_2111. vm_compute. left. reflexivity.
    - intros key price Hin. vm_compute in Hin. destruct Hin as [Hin | []].
      injection Hin as _ <-. lia. }
  split; [exact H |].
  exact (proj1 (cycle_records_lowest_price
                  (__init__ one_url) (world_of (all_show "7 500 kr") false) 7500 H)).
Defined.

Lemma configuration_step self world :
  let m := monitor (check_flight_price self world) in
  price_threshold m = price_threshold self /\
  check_interval m = check_interval self /\
  retry_interval m = retry_interval self /\
  max_retries m = max_retries self /\
  email_sent m = email_sent self /\
  destination m = destination self /\
  dates_range m = dates_range self /\
  shortest_date m = shortest_date self /\
  urls m = urls self.
Proof.
  destruct (check_flight_price_cases self world)
    as [(_ & _ & Hm & _) | (cur & payload & _ & _ & H)]; cbv zeta.
  - rewrite Hm. repeat split.
  - destruct (should_alert self cur); destruct H as (-> & _); repeat split.
Qed.

(** X13: no sequence of cycles changes the configuration: threshold,
    intervals, destination, date window, minimum trip length and URLs stay as
    [__init__] left them, and [email_sent] is never set. *)
Theorem cycles_keep_configuration self worlds :
  let m := after self worlds in
  price_threshold m = price_threshold self /\
  check_interval m = check_interval self /\
  retry_interval m = retry_interval self /\
  max_retries m = max_retries self /\
  email_sent m = email_sent self /\
  destination m = destination self /\
  dates_range m = dates_range self /\
  shortest_date m = shortest_date self /\
  urls m = urls self.
Proof.
  revert self. induction worlds as [| w ws IH]; intros self; simpl.
  - repeat split.
  - specialize (IH (monitor (check_flight_price self w))). cbv zeta in IH.
    destruct IH as (-> & -> & -> & -> & -> & -> & -> & -> & ->).
    apply configuration_step.
Qed.

(** X14: once the alert has fired for a price, no later cycle fires unless
    its lowest valid price is strictly lower, whatever happens in between and
    even if the mail of the first alert was not delivered. *)
Theorem no_second_alert_without_improvement self world worlds world' cur cur' :
  let c := check_flight_price self world in
  let c' := check_flight_price (after (monitor c) worlds) world' in
  fires c ->
  is_lowest cur (flight_prices c) ->
  is_lowest cur' (flight_prices c') ->
  cur <= cur' ->
  ~ fires c'.
Proof.
  intros c c' Hf Hlow Hlow' Hle Hf'.
  pose proof (proj1 (fires_iff_should_alert self world cur Hlow) Hf) as Hsa.
  pose proof (check_flight_price_at_lowest self world cur Hlow) as H.
  fold c in H. cbv zeta in H. rewrite Hsa in H. destruct H as (Hm & _).
  assert (Hheld : lowest_price_list (monitor c) = Some cur) by (rewrite Hm; reflexivity).
  destruct (held_price_never_rises worlds _ _ Hheld) as (best & Hbest & Hb).
  pose proof (proj1 (fires_iff_should_alert _ world' cur' Hlow') Hf') as Hsa'.
  unfold should_alert in Hsa'. rewrite Hbest in Hsa'.
  apply andb_prop in Hsa'. destruct Hsa' as [_ Hlt]. apply Z.ltb_lt in Hlt. lia.
Qed.

Lemma no_second_alert_without_improvement_witness :
  ~ fires (check_flight_price
             (after (monitor (check_flight_price
                                (__init__ one_url)
                                (world_of (all_show "7 500 kr") false)))
                    [world_of (all_show "9 000 kr") true])
             (world_of (all_show "7 500 kr") true)).
Proof.
  apply (no_second_alert_without_improvement
           (__init__ one_url) (world_of (all_show "7 500 kr") false)
           [world_of (all_show "9 000 kr") true]
           (world_of (all_show "7 500 kr") true) 7500 7500).
  - vm_compute. discriminate.
  - split.
    + exists key_2111. vm_compute. left. reflexivity.
    + intros key price Hin. vm_compute in Hin. destruct Hin as [Hin | []].
      injection Hin as _ <-. lia.
  - split.
    + exists key_2111. vm_compute. left. reflexivity.
    + intros key price Hin. vm_compute in Hin. destruct Hin as [Hin | []].
      injection Hin as _ <-. lia.
  - lia.
Defined.

(** ** More on [run] *)

Lemma held_price_kept_refl self : held_price_kept self self.
Proof.
  repeat split; auto. intros best Hb. exists best. split; [exact Hb | lia].
Qed.

Lemma held_price_kept_trans a b c :
  held_price_kept a b -> held_price_kept b c -> held_price_kept a c.
Proof.
  intros (Ht & Hm & Hi) (Ht' & Hm' & Hi'). repeat split.
  - rewrite Ht'. exact Ht.
  - intros best Hb. destruct (Hm _ Hb) as (b1 & E1 & L1).
    destruct (Hm' _ E1) as (b2 & E2 & L2). exists b2. split; [exact E2 | lia].
  - auto.
Qed.

Lemma held_price_kept_cycle self world :
  held_price_kept self (monitor (check_flight_price self world)).
Proof.
  repeat split.
  - apply price_threshold_step.
  - intros best Hb. exact (held_price_never_rises [world] self best Hb).
  - intros Hinv best Hb. rewrite price_threshold_step.
    destruct (held_price_step self world) as [E | (_ & cur & E & Hlt & _)].
    + apply Hinv. rewrite <- E. exact Hb.
    + rewrite E in Hb. injection Hb as <-. exact Hlt.
Qed.

(** An interrupted call leaves the held best price as it was or as the
    finished call would leave it. *)
Lemma held_price_kept_interrupted self world m :
  held_price_kept self (interrupted_call self world m).
Proof.
  destruct m; unfold interrupted_call.
  - apply held_price_kept_refl.
  - destruct (held_price_kept_cycle self world) as (Ht & Hm & Hi).
    repeat split; [exact Ht | exact Hm | exact Hi].
  - apply held_price_kept_cycle.
Qed.

Lemma held_price_kept_run turns : forall self,
  held_price_kept self (final (run self turns)).
Proof.
  induction turns as [| turn rest IH]; intros self; cbn [run].
  - apply held_price_kept_refl.
  - destruct (interrupt turn) as [m |]; [apply held_price_kept_interrupted |].
    cbv zeta.
    pose proof (held_price_kept_cycle self (world turn)) as Hstep.
    pose proof (IH (monitor (check_flight_price self (world turn)))) as Hrest.
    destruct (time_sleep _ _ (sleep_interrupted turn)); cbn [final then_].
    + exact (held_price_kept_trans _ _ _ Hstep Hrest).
    + exact Hstep.
    + destruct (time_sleep _ _ (sleep_interrupted turn)); cbn [final then_].
      * exact (held_price_kept_trans _ _ _ Hstep Hrest).
      * exact Hstep.
      * exact Hstep.
Qed.

(** X15: over any run, with the operator's interrupts wherever they fall
    (before the decision of a cycle, while its mail is being sent, after it,
    during a sleep) and with sleeps refused or not, a held best price is
    never raised, and one that is below the threshold (or unset) at the start
    is below the threshold (or unset) at the end. *)
Theorem run_keeps_held_price self turns :
  (forall best,
      lowest_price_list self = Some best ->
      exists best',
        lowest_price_list (final (run self turns)) = Some best' /\ best' <= best) /\
  (held_below_threshold self -> held_below_threshold (final (run self turns))).
Proof.
  destruct (held_price_kept_run turns self) as (_ & Hm & Hi). split; assumption.
Qed.

(** ** [setup_urls] *)

Lemma split_not_nil sep s : split sep s <> [].
Proof.
  destruct s as [| c s]; simpl; [discriminate |].
  destruct (Ascii.eqb c sep); [discriminate |].
  destruct (split sep s); discriminate.
Qed.

(** Splitting a text joined by the separator gives the pieces of both
    sides. *)
Lemma split_app sep a b :
  split sep (a ++ String sep b)%string = split sep a ++ split sep b.
Proof.
  induction a as [| c a IH]; simpl.
  - rewrite Ascii.eqb_refl. reflexivity.
  - destruct (Ascii.eqb c sep); rewrite IH; [reflexivity |].
    destruct (split sep a) as [| piece pieces] eqn:E; [| reflexivity].
    elim (split_not_nil sep a E).
Qed.

Lemma split_free sep s : occurs sep s = false -> split sep s = [s].
Proof.
  induction s as [| c s IH]; simpl; [reflexivity |].
  intros H. apply orb_false_elim in H. destruct H as [-> H].
  rewrite (IH H). reflexivity.
Qed.

Lemma split_key sep t a b :
  occurs sep t = false -> occurs sep a = false -> occurs sep b = false ->
  split sep (t ++ String sep (a ++ String sep b))%string = [t; a; b].
Proof.
  intros Ht Ha Hb.
  rewrite !split_app, (split_free _ _ Ht), (split_free _ _ Ha), (split_free _ _ Hb).
  reflexivity.
Qed.

Lemma substring_all s : forall n, (String.length s <= n)%nat -> substring 0 n s = s.
Proof.
  induction s as [| c s IH]; intros [| n] H; simpl in *; try reflexivity; try lia.
  rewrite IH by lia. reflexivity.
Qed.

Lemma substring_none s : substring 0 0 s = EmptyString.
Proof. destruct s; reflexivity. Qed.

Lemma dashed_year_month_day y m d :
  String.length y = 4%nat -> String.length m = 2%nat ->
  dashed (y ++ m ++ d) = (y ++ "-" ++ m ++ "-" ++ d)%string.
Proof.
  intros Hy Hm.
  destruct y as [| y1 [| y2 [| y3 [| y4 [| ? ?]]]]]; try discriminate Hy.
  destruct m as [| m1 [| m2 [| ? ?]]]; try discriminate Hm.
  unfold dashed, slice, slice_from.
  cbn [append String.length Nat.sub substring].
  rewrite substring_none, substring_all by lia. reflexivity.
Qed.

Lemma url_of_key_free t a b :
  underscore_free t -> underscore_free a -> underscore_free b ->
  url_of_key (t ++ "_" ++ a ++ "_" ++ b)
  = Some (kayak_url t (dashed a) (dashed b)).
Proof.
  intros Ht Ha Hb. unfold url_of_key, underscore_free in *.
  change (t ++ "_" ++ a ++ "_" ++ b)%string
    with (t ++ String "_" (a ++ String "_" b))%string.
  rewrite (split_key _ _ _ _ Ht Ha Hb). reflexivity.
Qed.

Lemma occurs_app c a b : occurs c (a ++ b) = occurs c a || occurs c b.
Proof.
  induction a as [| c' a IH]; simpl; [reflexivity |].
  rewrite IH, orb_assoc. reflexivity.
Qed.

(** X17: for a key made of an underscore-free destination and two dates
    written as year (4 characters), month (2) and day, the URL has the
    destination and the two dates as year-month-day in its path. *)
Theorem url_of_well_formed_key t y1 m1 d1 y2 m2 d2 :
  underscore_free t ->
  underscore_free (y1 ++ m1 ++ d1) -> underscore_free (y2 ++ m2 ++ d2) ->
  String.length y1 = 4%nat -> String.length m1 = 2%nat ->
  String.length y2 = 4%nat -> String.length m2 = 2%nat ->
  url_of_key (t ++ "_" ++ (y1 ++ m1 ++ d1) ++ "_" ++ (y2 ++ m2 ++ d2))
  = Some (kayak_url t (y1 ++ "-" ++ m1 ++ "-" ++ d1) (y2 ++ "-" ++ m2 ++ "-" ++ d2)).
Proof.
  intros Ht H1 H2 Hy1 Hm1 Hy2 Hm2.
  rewrite (url_of_key_free _ _ _ Ht H1 H2).
  rewrite (dashed_year_month_day _ _ _ Hy1 Hm1), (dashed_year_month_day _ _ _ Hy2 Hm2).
  reflexivity.
Qed.

Lemma url_of_well_formed_key_witness :
  url_of_key key_2111 = Some url_2111.
Proof.
  exact (url_of_well_formed_key "GOT-BJS" "2025" "12" "21" "2026" "01" "11"
           eq_refl eq_refl eq_refl eq_refl eq_refl eq_refl eq_refl).
Defined.

(** A destination with an underscore shifts the pieces: the URL asks for the
    text before the underscore and takes the rest for the departure date. *)
Example url_of_key_with_underscore_in_destination :
  url_of_key "GOT_BJS_20251221_20260111"
  = Some (kayak_url "GOT" "BJS--" "2025-12-21").
Proof. reflexivity. Qed.

Example url_of_key_without_dates : url_of_key "GOT-BJS_20251221" = None.
Proof. reflexivity. Qed.

Lemma length_split_positive sep s : (1 <= List.length (split sep s))%nat.
Proof.
  pose proof (split_not_nil sep s) as H.
  destruct (split sep s); [elim H; reflexivity | simpl; lia].
Qed.

(** A key with two underscores or more has the three pieces that the loop
    body indexes. *)
Lemma url_of_key_defined t a b :
  exists url, url_of_key (t ++ "_" ++ a ++ "_" ++ b) = Some url.
Proof.
  unfold url_of_key.
  change (t ++ "_" ++ a ++ "_" ++ b)%string
    with (t ++ String "_" (a ++ String "_" b))%string.
  rewrite !split_app.
  pose proof (length_split_positive "_" t) as Ht.
  pose proof (length_split_positive "_" a) as Ha.
  pose proof (length_split_positive "_" b) as Hb.
  set (pieces := split "_" t ++ split "_" a ++ split "_" b).
  assert (Hlen : (3 <= List.length pieces)%nat)
    by (unfold pieces; rewrite !length_app; lia).
  destruct (nth_error pieces 0) eqn:E0;
    [| apply nth_error_None in E0; lia].
  destruct (nth_error pieces 1) eqn:E1;
    [| apply nth_error_None in E1; lia].
  destruct (nth_error pieces 2) eqn:E2;
    [| apply nth_error_None in E2; lia].
  eexists. reflexivity.
Qed.

Lemma in_dict_set d key value k :
  In k (map fst (dict_set d key value)) <-> In k (map fst d) \/ k = key.
Proof.
  induction d as [| [k' v'] d IH]; simpl.
  - intuition congruence.
  - destruct (String.eqb_spec k' key) as [-> | Hne]; simpl.
    + intuition congruence.
    + rewrite IH. tauto.
Qed.

Lemma dict_set_fresh d key value :
  ~ In key (map fst d) -> dict_set d key value = d ++ [(key, value)].
Proof.
  induction d as [| [k v] d IH]; simpl; intros Hnot; [reflexivity |].
  destruct (String.eqb_spec k key) as [-> | Hne].
  - elim Hnot. now left.
  - rewrite IH; [reflexivity |]. intros Hin. apply Hnot. now right.
Qed.

Lemma fill_urls_defined keys : forall urls,
  (forall key, In key keys -> exists url, url_of_key key = Some url) ->
  exists urls',
    fill_urls keys urls = Some urls' /\
    forall key, In key (map fst urls') <-> In key (map fst urls) \/ In key keys.
Proof.
  induction keys as [| key keys IH]; intros urls Hdef; simpl.
  - exists urls. split; [reflexivity | tauto].
  - destruct (Hdef key (or_introl eq_refl)) as (url & ->).
    destruct (IH (dict_set urls key url)) as (urls' & -> & Hmem).
    { intros k Hk. apply Hdef. now right. }
    exists urls'. split; [reflexivity |].
    intros k. rewrite Hmem, in_dict_set. intuition congruence.
Qed.

Lemma fill_urls_fresh (url_for : string -> string) keys : forall urls,
  NoDup (map fst urls ++ keys) ->
  (forall key, In key keys -> url_of_key key = Some (url_for key)) ->
  fill_urls keys urls = Some (urls ++ map (fun key => (key, url_for key)) keys).
Proof.
  induction keys as [| key keys IH]; intros urls Hnd Hurl; simpl.
  - rewrite app_nil_r. reflexivity.
  - rewrite (Hurl key (or_introl eq_refl)).
    rewrite dict_set_fresh.
    + rewrite IH.
      * rewrite <- app_assoc. reflexivity.
      * rewrite map_app, <- app_assoc. exact Hnd.
      * intros k Hk. apply Hurl. now right.
    + apply NoDup_remove_2 in Hnd. intros Hin. apply Hnd.
      apply in_app_iff. now left.
Qed.

(** X18: [setup_urls] never fails on the keys [setup_keys_names] produces,
    whatever the destination, the window and the way dates are formatted: it
    leaves a dictionary whose keys are exactly the generated key strings. *)
Theorem setup_urls_never_raises strftime title first_date last_date shortest :
  exists keys urls,
    setup_keys_names title first_date last_date shortest = Returned keys /\
    setup_urls strftime title first_date last_date shortest = Some urls /\
    forall key, In key (map fst urls) <-> In key (map (key_name strftime) keys).
Proof.
  unfold setup_urls, setup_keys_names. cbv zeta.
  set (keys := sweep title first_date last_date shortest _ _ _ _).
  exists keys.
  destruct (fill_urls_defined (map (key_name strftime) keys) []) as (urls & Hfill & Hmem).
  { intros key Hin. apply in_map_iff in Hin. destruct Hin as (k & <- & _).
    apply url_of_key_defined. }
  exists urls. split; [reflexivity |]. split; [exact Hfill |].
  intros key. rewrite Hmem. simpl. tauto.
Qed.

Lemma key_name_injective strftime title first_date last_date k k' :
  underscore_free title ->
  (forall d, first_date <= d <= last_date -> underscore_free (strftime d)) ->
  (forall d d',
      first_date <= d <= last_date -> first_date <= d' <= last_date ->
      strftime d = strftime d' -> d = d') ->
  key_title k = title -> key_title k' = title ->
  first_date <= departDate k <= last_date ->
  first_date <= returnDate k <= last_date ->
  first_date <= departDate k' <= last_date ->
  first_date <= returnDate k' <= last_date ->
  key_name strftime k = key_name strftime k' ->
  k = k'.
Proof.
  intros Ht Hfree Hinj Hk Hk' Hd Hr Hd' Hr' E.
  destruct k as [t d r], k' as [t' d' r']; simpl in *. subst t t'.
  apply (f_equal (split "_")) in E. unfold key_name in E. simpl key_title in E.
  simpl departDate in E. simpl returnDate in E.
  change (title ++ "_" ++ strftime d ++ "_" ++ strftime r)%string
    with (title ++ String "_" (strftime d ++ String "_" (strftime r)))%string in E.
  change (title ++ "_" ++ strftime d' ++ "_" ++ strftime r')%string
    with (title ++ String "_" (strftime d' ++ String "_" (strftime r')))%string in E.
  rewrite !split_key in E by (try exact Ht; apply Hfree; assumption).
  injection E as Ed Er.
  rewrite (Hinj _ _ Hd Hd' Ed), (Hinj _ _ Hr Hr' Er). reflexivity.
Qed.

(** X19: when the destination and the formatted dates of the window contain
    no underscore, distinct days are formatted differently and the minimum
    trip length is at least one day, [setup_urls] leaves one entry per
    generated key, in generation order, whose URL carries the destination and
    the two formatted dates with dashes put in. *)
Theorem setup_urls_one_url_per_key strftime title first_date last_date shortest :
  1 <= shortest ->
  underscore_free title ->
  (forall d, first_date <= d <= last_date -> underscore_free (strftime d)) ->
  (forall d d',
      first_date <= d <= last_date -> first_date <= d' <= last_date ->
      strftime d = strftime d' -> d = d') ->
  exists keys,
    setup_keys_names title first_date last_date shortest = Returned keys /\
    setup_urls strftime title first_date last_date shortest
    = Some (map (fun k => (key_name strftime k,
                           kayak_url title
                                     (dashed (strftime (departDate k)))
                                     (dashed (strftime (returnDate k)))))
                keys).
Proof.
  intros Hpos Ht Hfree Hinj.
  unfold setup_urls, setup_keys_names. cbv zeta.
  set (keys := sweep title first_date last_date shortest _ _ _ _).
  exists keys. split; [reflexivity |].
  assert (Hkeys : forall k, In k keys ->
             key_title k = title /\
             first_date <= departDate k <= last_date /\
             first_date <= returnDate k <= last_date).
  { intros k Hk. unfold keys in Hk. apply in_sweep in Hk; [| reflexivity | lia].
    destruct Hk as [[] | (Hti & Hl & Hf & Hr)]. unfold trip_length in Hl.
    split; [exact Hti | lia]. }
  assert (Hnd : NoDup (map (key_name strftime) keys)).
  { apply NoDup_map_NoDup_ForallPairs.
    - intros k k' Hk Hk' E.
      destruct (Hkeys _ Hk) as (? & ? & ?). destruct (Hkeys _ Hk') as (? & ? & ?).
      eapply key_name_injective; eauto.
    - apply (NoDup_map_inv dates). unfold keys.
      apply NoDup_dates_sweep; [reflexivity | lia | constructor |].
      intros k []. }
  rewrite (fill_urls_fresh
             (fun key => match url_of_key key with Some url => url | None => key end)).
  - simpl. rewrite map_map. f_equal. apply map_ext_in. intros k Hk.
    destruct (Hkeys _ Hk) as (Hti & Hd & Hr). f_equal.
    unfold key_name. rewrite Hti.
    rewrite url_of_key_free by (try exact Ht; apply Hfree; assumption).
    reflexivity.
  - simpl. exact Hnd.
  - intros key Hin. apply in_map_iff in Hin. destruct Hin as (k & <- & _).
    destruct (url_of_key_defined (key_title k) (strftime (departDate k))
                (strftime (returnDate k))) as (url & E).
    unfold key_name. rewrite E. reflexivity.
Qed.

Lemma strftime_window_days d :
  dec_21 <= d <= dec_21 + 2 -> d = dec_21 \/ d = dec_21 + 1 \/ d = dec_21 + 2.
Proof. unfold dec_21. lia. Qed.

Lemma setup_urls_one_url_per_key_witness :
  exists keys,
    setup_keys_names "GOT-BJS" dec_21 (dec_21 + 2) 2 = Returned keys /\
    setup_urls strftime_window "GOT-BJS" dec_21 (dec_21 + 2) 2
    = Some (map (fun k => (key_name strftime_window k,
                           kayak_url "GOT-BJS"
                                     (dashed (strftime_window (departDate k)))
                                     (dashed (strftime_window (returnDate k)))))
                keys).
Proof.
  apply (setup_urls_one_url_per_key strftime_window "GOT-BJS" dec_21 (dec_21 + 2) 2).
  - lia.
  - reflexivity.
  - intros d Hd. destruct (strftime_window_days d Hd) as [-> | [-> | ->]]; reflexivity.
  - intros d d' Hd Hd' E.
    destruct (strftime_window_days d Hd) as [-> | [-> | ->]];
      destruct (strftime_window_days d' Hd') as [-> | [-> | ->]];
      try reflexivity; vm_compute in E; discriminate E.
Defined.

(** The dictionary [__init__] builds for the default window: 28 entries, the
    whole window first. *)
Example default_urls :
  exists urls,
    setup_urls strftime_window (destination (__init__ [])) dec_21 jan_11
               (shortest_date (__init__ [])) = Some urls /\
    List.length urls = 28%nat /\
    hd_error urls = Some (key_2111, url_2111) /\
    nth_error urls 1 = Some (key_2110, url_2110).
Proof. eexists. split; [vm_compute; reflexivity |]. vm_compute. auto. Qed.
